(** * etcd-druid: configuration synthesis, member-readiness condition and
    feature gates

    A shallow embedding of

    - [internal/component/configmap/etcdconfig.go] (module [configmap]),
    - [pkg/health/condition/check_all_members.go] (module [condition]),
    - [pkg/features/features.go] (module [features]),

    together with the small part of the Go standard library the code calls
    ([strings.Trim], [strings.Builder], [strconv.Itoa], string slicing), and
    of the calls as transformers of the program state (module [program]).

    Go strings are byte sequences; they are modelled as [string], whose
    characters are the 256 byte values.  A nil pointer or nil slice is [None],
    a non-nil one is [Some].  A Go panic is the outcome [None] of a function
    returning [option]. *)

From Stdlib Require Import ZArith String Ascii List Bool Lia DecimalString Permutation.
From stdpp Require Import gmap strings.

Local Open Scope Z_scope.

(** ** The Go standard library, as far as the code uses it *)

Module strings.

(** Membership of a byte in a cutset.  [strings.Trim] decodes runes, but
    for a cutset of ASCII bytes (the code only uses [","]) a rune of the
    string is in the cutset exactly when it is that single byte. *)
Definition inCutset (cutset : string) (c : ascii) : bool :=
  existsb (Ascii.eqb c) (list_ascii_of_string cutset).

Fixpoint TrimLeft (s cutset : string) : string :=
  match s with
  | EmptyString => EmptyString
  | String c s' => if inCutset cutset c then TrimLeft s' cutset else s
  end.

Fixpoint TrimRight (s cutset : string) : string :=
  match s with
  | EmptyString => EmptyString
  | String c s' =>
      match TrimRight s' cutset with
      | EmptyString => if inCutset cutset c then EmptyString else String c EmptyString
      | r => String c r
      end
  end.

(** [strings.Trim]: all leading and all trailing bytes of the cutset are
    removed. *)
Definition Trim (s cutset : string) : string :=
  TrimLeft (TrimRight s cutset) cutset.

(** [strings.Builder]: the accumulated string is the state. *)
Definition Builder := string.
Definition newBuilder : Builder := EmptyString.
Definition WriteString (b : Builder) (s : string) : Builder := b +:+ s.
Definition String_ (b : Builder) : string := b.

(** [strings.Join], used to state the format of the generated lists. *)
Fixpoint Join (elems : list string) (sep : string) : string :=
  match elems with
  | [] => EmptyString
  | [x] => x
  | x :: xs => x +:+ sep +:+ Join xs sep
  end.

End strings.

Module strconv.

(** [strconv.Itoa] and the verb [%d] of [fmt.Sprintf]: decimal digits, with
    a leading minus sign for a negative number. *)
Definition Itoa (i : Z) : string := NilZero.string_of_int (Z.to_int i).

End strconv.

(** [s[:n]]: the first [n] bytes; slicing beyond the length panics. *)
Definition slice_to (s : string) (n : nat) : option string :=
  if (n <=? String.length s)%nat then Some (substring 0 n s) else None.

(** First and last byte of a string. *)
Definition head_byte (s : string) : option ascii :=
  match s with
  | EmptyString => None
  | String c _ => Some c
  end.

Fixpoint last_byte (s : string) : option ascii :=
  match s with
  | EmptyString => None
  | String c EmptyString => Some c
  | String _ s' => last_byte s'
  end.

Definition comma : ascii := ","%char.

Definition starts_with_comma (s : string) : bool :=
  match head_byte s with
  | Some c => Ascii.eqb c comma
  | None => false
  end.

Definition ends_with_comma (s : string) : bool :=
  match last_byte s with
  | Some c => Ascii.eqb c comma
  | None => false
  end.

(** ** [api/v1alpha1]: the part of the Etcd resource the code reads

    The records carry the fields the three files read, under their Go names
    and typed as the code uses them: a field compared with [nil] or passed to
    [TypeDeref] is a pointer or slice, hence an [option].  Where two Go
    fields of different structs share a name, the second one is prefixed with
    its struct. *)

Module druidv1alpha1.

Definition MetricsLevel := string.
Definition CompactionMode := string.
Definition ConditionType := string.
Definition EtcdMemberConditionStatus := string.

(** Modelled from the spec: the declaration of [ConditionStatus] and of its
    constants lies in [api/v1alpha1], outside the files embedded here; by the
    spec the "status is exactly one of True | False | Unknown". *)
Inductive ConditionStatus := ConditionTrue | ConditionFalse | ConditionUnknown.

(** [metav1.ObjectMeta]. *)
Record ObjectMeta := {
  Name : string;
  Namespace : string;
  UID : string;
}.

(** [resource.Quantity], observed through [Value()], an [int64]. *)
Record Quantity := { Value : Z }.

Record SecretReference := {
  SecretName : string;
  DataKey : option string;
}.

Record TLSConfig := { TLSCASecretRef : SecretReference }.

(** An entry of the override lists [InitialCluster], [PeerURLs] and
    [ClientURLs]: [member.Name] and [member.URLs]. *)
Record Member := {
  Member_Name : string;
  URLs : list string;
}.

Record EtcdConfig := {
  Quota : option Quantity;
  ClientUrlTLS : option TLSConfig;
  PeerUrlTLS : option TLSConfig;
  Metrics : option MetricsLevel;
  ServerPort : option Z;
  ClientPort : option Z;
  InitialCluster : option (list Member);
  PeerURLs : option (list Member);
  ClientURLs : option (list Member);
}.

Record SharedConfig := {
  AutoCompactionMode : option CompactionMode;
  AutoCompactionRetention : option string;
}.

(** [Spec.Etcd] and [Spec.Common] are the fields [Spec_Etcd] and
    [Spec_Common]. *)
Record EtcdSpec := {
  Replicas : Z;
  Spec_Etcd : EtcdConfig;
  Spec_Common : SharedConfig;
}.

(** [member.Status] is the field [Member_Status]. *)
Record EtcdMemberStatus := {
  Member_ID : string;
  Member_Status : EtcdMemberConditionStatus;
}.

Record EtcdStatus := { Members : list EtcdMemberStatus }.

(** The embedded [ObjectMeta] is the field [Meta]: [etcd.Namespace] is
    [Namespace (Meta etcd)] and [etcd.UID] is [UID (Meta etcd)]. *)
Record Etcd := {
  Meta : ObjectMeta;
  Spec : EtcdSpec;
  Status : EtcdStatus;
}.

(** The constants and helpers of the package the code refers to, kept
    abstract: whatever is proved holds for every choice of them. *)
Class Api := {
  Basic : MetricsLevel;
  Periodic : CompactionMode;
  GetPeerServiceName : ObjectMeta -> string;
  GetOrdinalPodName : ObjectMeta -> Z -> string;
  ConditionTypeAllMembersReady : ConditionType;
  EtcdMemberStatusReady : EtcdMemberConditionStatus;
}.

End druidv1alpha1.

(** ** [internal/common]: mount paths and default ports, kept abstract *)

Module common.

Class Constants := {
  VolumeMountPathEtcdData : string;
  VolumeMountPathEtcdCA : string;
  VolumeMountPathEtcdServerTLS : string;
  VolumeMountPathEtcdPeerCA : string;
  VolumeMountPathEtcdPeerServerTLS : string;
  DefaultPortEtcdPeer : Z;
  DefaultPortEtcdClient : Z;
}.

End common.

Module utils.

(** Modelled from the spec: [utils.TypeDeref] is defined in
    [internal/utils], outside the files embedded here ([pointer.Int32Deref]
    of [k8s.io/utils] is used the same way).  The spec describes the
    default-filling as "default-value derivation via pointer-nilness checks"
    in which "defaults only apply to absent fields": the pointed-to value
    when the pointer is non-nil, the default otherwise. *)
Definition TypeDeref {T : Type} (val : option T) (defaultVal : T) : T :=
  match val with
  | Some v => v
  | None => defaultVal
  end.

End utils.

(** ** [internal/component/configmap/etcdconfig.go] *)

Module configmap.
Import druidv1alpha1 common.

Definition defaultDBQuotaBytes : Z := 8 * 1024 * 1024 * 1024.
Definition defaultAutoCompactionRetention : string := "30m".
Definition defaultInitialClusterToken : string := "etcd-cluster".
Definition defaultInitialClusterState : string := "new".
Definition defaultSnapshotCount : Z := 75000.

Record securityConfig := {
  CertFile : string;
  KeyFile : string;
  ClientCertAuth : bool;
  TrustedCAFile : string;
  AutoTLS : bool;
}.

(** The zero value of [securityConfig]: what a field of that type holds
    when nothing is assigned to it, and what [omitempty] leaves out of the
    serialized document. *)
Definition zeroSecurityConfig : securityConfig :=
  {| CertFile := ""; KeyFile := ""; ClientCertAuth := false;
     TrustedCAFile := ""; AutoTLS := false |}.

Record etcdConfig := {
  Name : string;
  DataDir : string;
  Metrics : MetricsLevel;
  SnapshotCount : Z;
  EnableV2 : bool;
  QuotaBackendBytes : Z;
  InitialClusterToken : string;
  InitialClusterState : string;
  InitialCluster : string;
  AutoCompactionMode : CompactionMode;
  AutoCompactionRetention : string;
  ListenPeerUrls : string;
  ListenClientUrls : string;
  AdvertisePeerUrls : string;
  AdvertiseClientUrls : string;
  ClientSecurity : securityConfig;
  PeerSecurity : securityConfig;
}.

(** The assignments [cfg.PeerSecurity = ...] and [cfg.ClientSecurity = ...]. *)
Definition set_PeerSecurity (cfg : etcdConfig) (sc : securityConfig) : etcdConfig :=
  {| Name := Name cfg; DataDir := DataDir cfg; Metrics := Metrics cfg;
     SnapshotCount := SnapshotCount cfg; EnableV2 := EnableV2 cfg;
     QuotaBackendBytes := QuotaBackendBytes cfg;
     InitialClusterToken := InitialClusterToken cfg;
     InitialClusterState := InitialClusterState cfg;
     InitialCluster := InitialCluster cfg;
     AutoCompactionMode := AutoCompactionMode cfg;
     AutoCompactionRetention := AutoCompactionRetention cfg;
     ListenPeerUrls := ListenPeerUrls cfg;
     ListenClientUrls := ListenClientUrls cfg;
     AdvertisePeerUrls := AdvertisePeerUrls cfg;
     AdvertiseClientUrls := AdvertiseClientUrls cfg;
     ClientSecurity := ClientSecurity cfg;
     PeerSecurity := sc |}.

Definition set_ClientSecurity (cfg : etcdConfig) (sc : securityConfig) : etcdConfig :=
  {| Name := Name cfg; DataDir := DataDir cfg; Metrics := Metrics cfg;
     SnapshotCount := SnapshotCount cfg; EnableV2 := EnableV2 cfg;
     QuotaBackendBytes := QuotaBackendBytes cfg;
     InitialClusterToken := InitialClusterToken cfg;
     InitialClusterState := InitialClusterState cfg;
     InitialCluster := InitialCluster cfg;
     AutoCompactionMode := AutoCompactionMode cfg;
     AutoCompactionRetention := AutoCompactionRetention cfg;
     ListenPeerUrls := ListenPeerUrls cfg;
     ListenClientUrls := ListenClientUrls cfg;
     AdvertisePeerUrls := AdvertisePeerUrls cfg;
     AdvertiseClientUrls := AdvertiseClientUrls cfg;
     ClientSecurity := sc;
     PeerSecurity := PeerSecurity cfg |}.

Section Code.
Context `{Api} `{Constants}.

Definition defaultDataDir : string := VolumeMountPathEtcdData +:+ "/new.etcd".

Definition getDBQuotaBytes (etcd : Etcd) : Z :=
  let dbQuotaBytes := defaultDBQuotaBytes in
  match Quota (Spec_Etcd (Spec etcd)) with
  | Some q => Value q
  | None => dbQuotaBytes
  end.

Definition getSchemeAndSecurityConfig (tlsConfig : option TLSConfig)
    (caPath serverTLSPath : string) : string * option securityConfig :=
  match tlsConfig with
  | Some tls =>
      let defaultTLSCASecretKey := "ca.crt" in
      ("https",
       Some {| CertFile := serverTLSPath +:+ "/tls.crt";
               KeyFile := serverTLSPath +:+ "/tls.key";
               ClientCertAuth := true;
               TrustedCAFile :=
                 caPath +:+ "/" +:+
                 utils.TypeDeref (DataKey (TLSCASecretRef tls)) defaultTLSCASecretKey;
               AutoTLS := false |})
  | None => ("http", None)
  end.

(** The two nested [range] loops over an override list: every URL of
    every member appends ["<name>=<url>,"] to the builder. *)
Definition writeMembers (builder : strings.Builder) (members : list Member)
    : strings.Builder :=
  fold_left
    (fun b member =>
       fold_left
         (fun b url =>
            strings.WriteString b (Member_Name member +:+ "=" +:+ url +:+ ","))
         (URLs member) b)
    members builder.

(** The loop [for i := 0; i < n; i++] of [prepareInitialCluster]; it runs
    at most [fuel] times, and [Z.to_nat n] is enough. *)
Fixpoint writeOrdinals (fuel : nat) (i n : Z) (entry : Z -> string)
    (builder : strings.Builder) : strings.Builder :=
  match fuel with
  | O => builder
  | S fuel' =>
      if i <? n
      then writeOrdinals fuel' (i + 1) n entry (strings.WriteString builder (entry i))
      else builder
  end.

(** The text one ordinal appends in the generated path. *)
Definition ordinalEntry (etcd : Etcd) (peerScheme : string) (i : Z) : string :=
  let domainName :=
    GetPeerServiceName (Meta etcd) +:+ "." +:+ Namespace (Meta etcd) +:+ "." +:+ "svc" in
  let serverPort :=
    strconv.Itoa (utils.TypeDeref (ServerPort (Spec_Etcd (Spec etcd))) DefaultPortEtcdPeer) in
  let podName := GetOrdinalPodName (Meta etcd) i in
  podName +:+ "=" +:+ peerScheme +:+ "://" +:+ podName +:+ "." +:+ domainName
          +:+ ":" +:+ serverPort +:+ ",".

Definition prepareInitialCluster (etcd : Etcd) (peerScheme : string) : string :=
  let builder := strings.newBuilder in
  let builder :=
    match druidv1alpha1.InitialCluster (Spec_Etcd (Spec etcd)) with
    | Some members => writeMembers builder members
    | None =>
        let n := Replicas (Spec etcd) in
        writeOrdinals (Z.to_nat n) 0 n (ordinalEntry etcd peerScheme) builder
    end in
  strings.Trim (strings.String_ builder) ",".

Definition preparePeerURLs (etcd : Etcd) (peerScheme peerSvcName : string) : string :=
  match PeerURLs (Spec_Etcd (Spec etcd)) with
  | Some members =>
      let builder := strings.newBuilder in
      let builder := writeMembers builder members in
      strings.Trim (strings.String_ builder) ","
  | None =>
      peerScheme +:+ "@" +:+ peerSvcName +:+ "@" +:+ Namespace (Meta etcd) +:+ "@"
        +:+ strconv.Itoa (utils.TypeDeref (ServerPort (Spec_Etcd (Spec etcd))) DefaultPortEtcdPeer)
  end.

Definition prepareClientURLs (etcd : Etcd) (clientScheme peerSvcName : string) : string :=
  match ClientURLs (Spec_Etcd (Spec etcd)) with
  | Some members =>
      let builder := strings.newBuilder in
      let builder := writeMembers builder members in
      strings.Trim (strings.String_ builder) ","
  | None =>
      clientScheme +:+ "@" +:+ peerSvcName +:+ "@" +:+ Namespace (Meta etcd) +:+ "@"
        +:+ strconv.Itoa (utils.TypeDeref (ClientPort (Spec_Etcd (Spec etcd))) DefaultPortEtcdClient)
  end.

(** [createEtcdConfig]; [None] is the panic of [etcd.UID[:6]] on a UID of
    fewer than six bytes. *)
Definition createEtcdConfig (etcd : Etcd) : option etcdConfig :=
  let '(clientScheme, clientSecurityConfig) :=
    getSchemeAndSecurityConfig (ClientUrlTLS (Spec_Etcd (Spec etcd)))
      VolumeMountPathEtcdCA VolumeMountPathEtcdServerTLS in
  let '(peerScheme, peerSecurityConfig) :=
    getSchemeAndSecurityConfig (PeerUrlTLS (Spec_Etcd (Spec etcd)))
      VolumeMountPathEtcdPeerCA VolumeMountPathEtcdPeerServerTLS in
  let peerSvcName := GetPeerServiceName (Meta etcd) in
  match slice_to (UID (Meta etcd)) 6 with
  | None => None
  | Some uid6 =>
      let cfg :=
        {| Name := "etcd-" +:+ uid6;
           DataDir := defaultDataDir;
           Metrics := utils.TypeDeref (druidv1alpha1.Metrics (Spec_Etcd (Spec etcd))) Basic;
           SnapshotCount := defaultSnapshotCount;
           EnableV2 := false;
           QuotaBackendBytes := getDBQuotaBytes etcd;
           InitialClusterToken := defaultInitialClusterToken;
           InitialClusterState := defaultInitialClusterState;
           InitialCluster := prepareInitialCluster etcd peerScheme;
           AutoCompactionMode :=
             utils.TypeDeref (druidv1alpha1.AutoCompactionMode (Spec_Common (Spec etcd))) Periodic;
           AutoCompactionRetention :=
             utils.TypeDeref (druidv1alpha1.AutoCompactionRetention (Spec_Common (Spec etcd)))
               defaultAutoCompactionRetention;
           ListenPeerUrls :=
             peerScheme +:+ "://0.0.0.0:" +:+
             strconv.Itoa (utils.TypeDeref (ServerPort (Spec_Etcd (Spec etcd))) DefaultPortEtcdPeer);
           ListenClientUrls :=
             clientScheme +:+ "://0.0.0.0:" +:+
             strconv.Itoa (utils.TypeDeref (ClientPort (Spec_Etcd (Spec etcd))) DefaultPortEtcdClient);
           AdvertisePeerUrls := preparePeerURLs etcd peerScheme peerSvcName;
           AdvertiseClientUrls := prepareClientURLs etcd clientScheme peerSvcName;
           ClientSecurity := zeroSecurityConfig;
           PeerSecurity := zeroSecurityConfig |} in
      let cfg :=
        match peerSecurityConfig with
        | Some sc => set_PeerSecurity cfg sc
        | None => cfg
        end in
      let cfg :=
        match clientSecurityConfig with
        | Some sc => set_ClientSecurity cfg sc
        | None => cfg
        end in
      Some cfg
  end.

End Code.

End configmap.

(** ** [pkg/health/condition/check_all_members.go] *)

Module condition.
Import druidv1alpha1.

Record result := {
  conType : ConditionType;
  status : ConditionStatus;
  reason : string;
  message : string;
}.

Section Code.
Context `{Api}.

(** The [range] loop of [Check]: the first member that is not ready
    rewrites status, reason and message of [res] and returns; when the
    members are exhausted [res] is returned as it is. *)
Fixpoint scanMembers (members : list EtcdMemberStatus) (res : result) : result :=
  match members with
  | [] => res
  | member :: rest =>
      if negb (String.eqb (Member_Status member) EtcdMemberStatusReady)
      then {| conType := conType res;
              status := ConditionFalse;
              reason := "NotAllMembersReady";
              message := "At least one member is not ready" |}
      else scanMembers rest res
  end.

Definition Check (etcd : Etcd) : result :=
  if (length (Members (Status etcd)) =? 0)%nat
  then {| conType := ConditionTypeAllMembersReady;
          status := ConditionUnknown;
          reason := "NoMembersInStatus";
          message := "Cannot determine readiness since status has no members" |}
  else
    let res := {| conType := ConditionTypeAllMembersReady;
                  status := ConditionTrue;
                  reason := "AllMembersReady";
                  message := "All members are ready" |} in
    scanMembers (Members (Status etcd)) res.

End Code.

End condition.

(** ** [k8s.io/component-base/featuregate], as far as [features.go] uses it *)

Module featuregate.

Definition Feature := string.

Inductive prerelease := Alpha | Beta | GA | Deprecated.

Record FeatureSpec := {
  Default : bool;
  PreRelease : prerelease;
}.

#[global] Instance prerelease_eq_dec : EqDecision prerelease.
Proof. solve_decision. Defined.

#[global] Instance FeatureSpec_eq_dec : EqDecision FeatureSpec.
Proof. solve_decision. Defined.

(** The state of a mutable feature gate: the known features and whether
    the gate has been closed for further registration. *)
Record featureGate := {
  known : gmap Feature FeatureSpec;
  closed : bool;
}.

(** A feature may be added when it is unknown or known with the same
    spec. *)
Definition compatible (knownSpecs : gmap Feature FeatureSpec)
    (name : Feature) (spec : FeatureSpec) : bool :=
  match knownSpecs !! name with
  | Some existingSpec => bool_decide (existingSpec = spec)
  | None => true
  end.

(** [Add]: an error ([None]) when the gate is closed or a feature is
    already known with a different spec; otherwise every feature of the
    argument becomes known. *)
Definition Add (f : featureGate) (features : gmap Feature FeatureSpec)
    : option featureGate :=
  if closed f then None
  else if forallb (fun '(name, spec) => compatible (known f) name spec)
            (map_to_list features)
  then Some {| known := features ∪ known f; closed := closed f |}
  else None.

End featuregate.

Module utilruntime.

(** [Must] panics on an error: the panic is the outcome [None]. *)
Definition Must {A : Type} (r : option A) : option A := r.

End utilruntime.

(** ** [pkg/features/features.go] *)

Module features.
Import featuregate.

Definition BackupCompaction : Feature := "BackupCompaction".

Definition featureGates : gmap Feature FeatureSpec :=
  {[ BackupCompaction := {| Default := false; PreRelease := Alpha |} ]}.

(** [RegisterFeatureGates], as a transformer of the shared [FeatureGate]. *)
Definition RegisterFeatureGates (FeatureGate : featureGate) : option featureGate :=
  utilruntime.Must (Add FeatureGate featureGates).

End features.

(** ** The program state: package variables and resources

    [createEtcdConfig] receives a pointer to the resource and reads the
    package variable [defaultDataDir]; [RegisterFeatureGates] updates the
    package variable [FeatureGate]; callers own the resources and may assign
    to them between calls.  To speak about state and call order, the calls
    are given here as transformers of a world made of the two variables and
    of the resources pointers refer to.  A panic ends the run ([None]).  The
    code under [configmap] reads no clock, no random source and ranges over
    slices only, never over a Go map. *)

Module program.
Import druidv1alpha1 common.

Definition ptr := positive.

Record World := {
  var_defaultDataDir : string;
  var_FeatureGate : featuregate.featureGate;
  heap : gmap ptr Etcd;
}.

(** A computation: a value and the next world, or a panic. *)
Definition Run (A : Type) : Type := World -> option (A * World).

Definition ret {A : Type} (a : A) : Run A := fun w => Some (a, w).

Definition bind {A B : Type} (c : Run A) (k : A -> Run B) : Run B :=
  fun w =>
    match c w with
    | Some (a, w') => k a w'
    | None => None
    end.

Notation "x <- c ;; k" := (bind c (fun x => k))
  (at level 100, c at next level, right associativity).

Definition panic {A : Type} : Run A := fun _ => None.

(** A Go operation that panics on failure, such as a slice out of range. *)
Definition orPanic {A : Type} (r : option A) : Run A :=
  match r with
  | Some a => ret a
  | None => panic
  end.

(** [*p]: a nil or dangling pointer panics. *)
Definition deref (p : ptr) : Run Etcd := fun w => orPanic (heap w !! p) w.

(** [*p = etcd], done by a caller. *)
Definition assign (p : ptr) (etcd : Etcd) : Run unit :=
  fun w =>
    Some (tt, {| var_defaultDataDir := var_defaultDataDir w;
                 var_FeatureGate := var_FeatureGate w;
                 heap := <[p := etcd]> (heap w) |}).

Definition load_defaultDataDir : Run string := fun w => Some (var_defaultDataDir w, w).

Definition load_FeatureGate : Run featuregate.featureGate :=
  fun w => Some (var_FeatureGate w, w).

Definition store_FeatureGate (g : featuregate.featureGate) : Run unit :=
  fun w =>
    Some (tt, {| var_defaultDataDir := var_defaultDataDir w;
                 var_FeatureGate := g;
                 heap := heap w |}).

Section Code.
Context `{Api} `{Constants}.

(** [createEtcdConfig] as the program runs it: the resource is read through
    the pointer and the data directory from the package variable. *)
Definition createEtcdConfig (etcd : ptr) : Run configmap.etcdConfig :=
  e <- deref etcd ;;
  let '(clientScheme, clientSecurityConfig) :=
    configmap.getSchemeAndSecurityConfig (ClientUrlTLS (Spec_Etcd (Spec e)))
      VolumeMountPathEtcdCA VolumeMountPathEtcdServerTLS in
  let '(peerScheme, peerSecurityConfig) :=
    configmap.getSchemeAndSecurityConfig (PeerUrlTLS (Spec_Etcd (Spec e)))
      VolumeMountPathEtcdPeerCA VolumeMountPathEtcdPeerServerTLS in
  let peerSvcName := GetPeerServiceName (Meta e) in
  uid6 <- orPanic (slice_to (UID (Meta e)) 6) ;;
  dataDir <- load_defaultDataDir ;;
  let cfg :=
    {| configmap.Name := "etcd-" +:+ uid6;
       configmap.DataDir := dataDir;
       configmap.Metrics := utils.TypeDeref (Metrics (Spec_Etcd (Spec e))) Basic;
       configmap.SnapshotCount := configmap.defaultSnapshotCount;
       configmap.EnableV2 := false;
       configmap.QuotaBackendBytes := configmap.getDBQuotaBytes e;
       configmap.InitialClusterToken := configmap.defaultInitialClusterToken;
       configmap.InitialClusterState := configmap.defaultInitialClusterState;
       configmap.InitialCluster := configmap.prepareInitialCluster e peerScheme;
       configmap.AutoCompactionMode :=
         utils.TypeDeref (AutoCompactionMode (Spec_Common (Spec e))) Periodic;
       configmap.AutoCompactionRetention :=
         utils.TypeDeref (AutoCompactionRetention (Spec_Common (Spec e)))
           configmap.defaultAutoCompactionRetention;
       configmap.ListenPeerUrls :=
         peerScheme +:+ "://0.0.0.0:" +:+
         strconv.Itoa (utils.TypeDeref (ServerPort (Spec_Etcd (Spec e))) DefaultPortEtcdPeer);
       configmap.ListenClientUrls :=
         clientScheme +:+ "://0.0.0.0:" +:+
         strconv.Itoa (utils.TypeDeref (ClientPort (Spec_Etcd (Spec e))) DefaultPortEtcdClient);
       configmap.AdvertisePeerUrls := configmap.preparePeerURLs e peerScheme peerSvcName;
       configmap.AdvertiseClientUrls := configmap.prepareClientURLs e clientScheme peerSvcName;
       configmap.ClientSecurity := configmap.zeroSecurityConfig;
       configmap.PeerSecurity := configmap.zeroSecurityConfig |} in
  let cfg :=
    match peerSecurityConfig with
    | Some sc => configmap.set_PeerSecurity cfg sc
    | None => cfg
    end in
  let cfg :=
    match clientSecurityConfig with
    | Some sc => configmap.set_ClientSecurity cfg sc
    | None => cfg
    end in
  ret cfg.

(** [Check] receives the resource by value. *)
Definition Check (etcd : Etcd) : Run condition.result := ret (condition.Check etcd).

(** [RegisterFeatureGates] on the shared [FeatureGate]. *)
Definition RegisterFeatureGates : Run unit :=
  g <- load_FeatureGate ;;
  g' <- orPanic (features.RegisterFeatureGates g) ;;
  store_FeatureGate g'.

(** What may happen between two calls: calls of the three functions and
    assignments to resources. *)
Inductive Op :=
| CallCreateEtcdConfig (etcd : ptr)
| CallCheck (etcd : Etcd)
| CallRegisterFeatureGates
| Assign (p : ptr) (etcd : Etcd).

Definition step (op : Op) : Run unit :=
  match op with
  | CallCreateEtcdConfig p => _ <- createEtcdConfig p ;; ret tt
  | CallCheck etcd => _ <- Check etcd ;; ret tt
  | CallRegisterFeatureGates => RegisterFeatureGates
  | Assign p etcd => assign p etcd
  end.

Fixpoint run (ops : list Op) : Run unit :=
  match ops with
  | [] => ret tt
  | op :: rest => _ <- step op ;; run rest
  end.

(** The world after package initialization, for a given gate and given
    resources: [defaultDataDir] holds its initializer. *)
Definition init (gate : featuregate.featureGate) (resources : gmap ptr Etcd) : World :=
  {| var_defaultDataDir := configmap.defaultDataDir;
     var_FeatureGate := gate;
     heap := resources |}.

End Code.

End program.

(** ** Vocabulary of the statements *)

(** The [name=url] pairs of an override list: one pair per member and URL,
    in input order. *)
Definition flattenMembers (members : list druidv1alpha1.Member) : list string :=
  flat_map
    (fun m => map (fun url => druidv1alpha1.Member_Name m +:+ "=" +:+ url)
                  (druidv1alpha1.URLs m))
    members.

(** The ordinals [0, 1, ..., n-1] in ascending order (none when [n <= 0]). *)
Definition ordinals (n : Z) : list Z := map Z.of_nat (seq 0 (Z.to_nat n)).

(** The bootstrap entry of one replica,
    [<podName>=<peerScheme>://<podName>.<peerService>.<namespace>.svc:<serverPort>]. *)
Definition replicaEntry `{druidv1alpha1.Api} `{common.Constants}
    (etcd : druidv1alpha1.Etcd) (peerScheme : string) (i : Z) : string :=
  let podName := druidv1alpha1.GetOrdinalPodName (druidv1alpha1.Meta etcd) i in
  let peerService := druidv1alpha1.GetPeerServiceName (druidv1alpha1.Meta etcd) in
  let serverPort :=
    utils.TypeDeref
      (druidv1alpha1.ServerPort (druidv1alpha1.Spec_Etcd (druidv1alpha1.Spec etcd)))
      common.DefaultPortEtcdPeer in
  podName +:+ "=" +:+ peerScheme +:+ "://" +:+ podName +:+ "." +:+ peerService +:+ "."
          +:+ druidv1alpha1.Namespace (druidv1alpha1.Meta etcd) +:+ ".svc:"
          +:+ strconv.Itoa serverPort.

(** Every element followed by a comma: what a builder holds after writing
    the elements one by one. *)
Definition terminated (elems : list string) : string :=
  fold_right (fun p acc => p +:+ "," +:+ acc) "" elems.

(** The integers [i, i+1, ..., i+k-1]. *)
Fixpoint zrange (i : Z) (k : nat) : list Z :=
  match k with
  | O => []
  | S k' => i :: zrange (i + 1) k'
  end.

(** A string that is not empty and whose last byte is not a comma. *)
Definition ends_clean (s : string) : bool :=
  match last_byte s with
  | Some c => negb (Ascii.eqb c comma)
  | None => false
  end.

(** The URL scheme of a target: secure exactly when its TLS input is
    present. *)
Definition schemeOf (tlsConfig : option druidv1alpha1.TLSConfig) : string :=
  match tlsConfig with
  | Some _ => "https"
  | None => "http"
  end.

(** A member whose reported status is not the ready one. *)
Definition notReady `{druidv1alpha1.Api} (member : druidv1alpha1.EtcdMemberStatus) : bool :=
  negb (String.eqb (druidv1alpha1.Member_Status member) druidv1alpha1.EtcdMemberStatusReady).

(** [etcd] with its replica count replaced. *)
Definition withReplicas (etcd : druidv1alpha1.Etcd) (n : Z) : druidv1alpha1.Etcd :=
  {| druidv1alpha1.Meta := druidv1alpha1.Meta etcd;
     druidv1alpha1.Spec :=
       {| druidv1alpha1.Replicas := n;
          druidv1alpha1.Spec_Etcd := druidv1alpha1.Spec_Etcd (druidv1alpha1.Spec etcd);
          druidv1alpha1.Spec_Common := druidv1alpha1.Spec_Common (druidv1alpha1.Spec etcd) |};
     druidv1alpha1.Status := druidv1alpha1.Status etcd |}.

(** ** Sample values for the examples

    One choice of the parameters, and a family of Etcd resources built from
    the fields the examples vary. *)

Module sample.
Import druidv1alpha1 common.

Definition api : Api :=
  {| Basic := "basic";
     Periodic := "periodic";
     GetPeerServiceName := fun m => Name m +:+ "-peer";
     GetOrdinalPodName := fun m i => Name m +:+ "-" +:+ strconv.Itoa i;
     ConditionTypeAllMembersReady := "AllMembersReady";
     EtcdMemberStatusReady := "Ready" |}.

Definition constants : Constants :=
  {| VolumeMountPathEtcdData := "/var/etcd/data";
     VolumeMountPathEtcdCA := "/var/etcd/ssl/ca";
     VolumeMountPathEtcdServerTLS := "/var/etcd/ssl/server";
     VolumeMountPathEtcdPeerCA := "/var/etcd/ssl/peerca";
     VolumeMountPathEtcdPeerServerTLS := "/var/etcd/ssl/peerserver";
     DefaultPortEtcdPeer := 2380;
     DefaultPortEtcdClient := 2379 |}.

Definition tls (dataKey : option string) : TLSConfig :=
  {| TLSCASecretRef := {| SecretName := "ca-etcd"; DataKey := dataKey |} |}.

Definition etcdSpec (replicas : Z) (quota : option Quantity)
    (clientTLS peerTLS : option TLSConfig)
    (initialCluster peerURLs clientURLs : option (list Member)) : EtcdSpec :=
  {| Replicas := replicas;
     Spec_Etcd :=
       {| Quota := quota;
          ClientUrlTLS := clientTLS;
          PeerUrlTLS := peerTLS;
          Metrics := None;
          ServerPort := None;
          ClientPort := None;
          InitialCluster := initialCluster;
          PeerURLs := peerURLs;
          ClientURLs := clientURLs |};
     Spec_Common := {| AutoCompactionMode := None; AutoCompactionRetention := None |} |}.

Definition member (id : string) (st : EtcdMemberConditionStatus) : EtcdMemberStatus :=
  {| Member_ID := id; Member_Status := st |}.

Definition etcd (uid : string) (spec : EtcdSpec) (members : list EtcdMemberStatus) : Etcd :=
  {| Meta := {| Name := "main"; Namespace := "shoot"; UID := uid |};
     Spec := spec;
     Status := {| Members := members |} |}.

(** Three replicas, no client TLS, peer TLS, nothing else set. *)
Definition threeReplicas : Etcd :=
  etcd "a1b2c3d4-0000" (etcdSpec 3 None None (Some (tls None)) None None None) [].

End sample.

(** * Proofs *)

(** ** Strings *)

#[local] Arguments String.append !_ _ /.

Section StringFacts.

Example Trim_example : strings.Trim ",,a=b,c=d,," "," = "a=b,c=d".
Proof. reflexivity. Qed.

Example Itoa_example :
  strconv.Itoa 2380 = "2380" /\ strconv.Itoa 0 = "0" /\ strconv.Itoa (-7) = "-7".
Proof. repeat split; reflexivity. Qed.

Example slice_to_example :
  slice_to "0123456789" 6 = Some "012345" /\ slice_to "01234" 6 = None.
Proof. split; reflexivity. Qed.

Lemma append_nil_r (s : string) : s +:+ "" = s.
Proof. induction s as [|a s IH]; simpl; [reflexivity | now rewrite IH]. Qed.

Lemma append_assoc (a b c : string) : (a +:+ b) +:+ c = a +:+ (b +:+ c).
Proof. induction a as [|x a IH]; simpl; [reflexivity | now rewrite IH]. Qed.

Lemma append_length (a b : string) :
  String.length (a +:+ b) = (String.length a + String.length b)%nat.
Proof. induction a as [|x a IH]; simpl; [reflexivity | now rewrite IH]. Qed.

Lemma inCutset_comma (a : ascii) : strings.inCutset "," a = Ascii.eqb a comma.
Proof. unfold strings.inCutset. simpl. apply orb_false_r. Qed.

Lemma head_byte_append (a b : string) :
  head_byte (a +:+ b) = match head_byte a with Some c => Some c | None => head_byte b end.
Proof. destruct a; reflexivity. Qed.

Lemma last_byte_None (s : string) : last_byte s = None -> s = "".
Proof.
  induction s as [|a s IH]; [reflexivity|].
  simpl. destruct s; [discriminate|]. intros E. now specialize (IH E).
Qed.

Lemma last_byte_cons (x : ascii) (s : string) :
  s <> "" -> last_byte (String x s) = last_byte s.
Proof. destruct s; [congruence | reflexivity]. Qed.

Lemma last_byte_append (a b : string) :
  last_byte (a +:+ b) = match last_byte b with Some c => Some c | None => last_byte a end.
Proof.
  induction a as [|x a IH].
  - simpl. now destruct (last_byte b).
  - change (String x a +:+ b) with (String x (a +:+ b)).
    destruct (last_byte b) as [c|] eqn:Eb.
    + rewrite last_byte_cons; [exact IH|].
      destruct a; simpl; [|discriminate]. intros ->. discriminate.
    + apply last_byte_None in Eb. subst b. now rewrite append_nil_r.
Qed.

Lemma TrimLeft_id (s : string) :
  starts_with_comma s = false -> strings.TrimLeft s "," = s.
Proof.
  destruct s as [|a s]; [reflexivity|].
  unfold starts_with_comma. simpl. rewrite inCutset_comma. now intros ->.
Qed.

Lemma TrimRight_app_comma (s : string) :
  strings.TrimRight (s +:+ ",") "," = strings.TrimRight s ",".
Proof.
  induction s as [|a s IH]; [reflexivity|].
  simpl. now rewrite IH.
Qed.

Lemma TrimRight_id (s : string) :
  ends_with_comma s = false -> strings.TrimRight s "," = s.
Proof.
  unfold ends_with_comma.
  induction s as [|a s IH]; [reflexivity|].
  simpl. destruct s as [|b s].
  - simpl. rewrite inCutset_comma. now intros ->.
  - intros E. rewrite (IH E). reflexivity.
Qed.

(** Trimming is the identity exactly on the strings that neither begin nor
    end with a comma. *)
Lemma Trim_id (s : string) :
  starts_with_comma s = false -> ends_with_comma s = false ->
  strings.Trim s "," = s.
Proof.
  intros Hs He. unfold strings.Trim. rewrite (TrimRight_id _ He). now apply TrimLeft_id.
Qed.

Lemma TrimLeft_no_comma (s : string) : starts_with_comma (strings.TrimLeft s ",") = false.
Proof.
  induction s as [|a s IH]; [reflexivity|].
  simpl. rewrite inCutset_comma. destruct (Ascii.eqb a comma) eqn:E; [exact IH|].
  unfold starts_with_comma. simpl. exact E.
Qed.

Lemma TrimRight_no_comma (s : string) : ends_with_comma (strings.TrimRight s ",") = false.
Proof.
  unfold ends_with_comma.
  induction s as [|a s IH]; [reflexivity|].
  simpl. destruct (strings.TrimRight s ",") as [|b r] eqn:E.
  - rewrite inCutset_comma. destruct (Ascii.eqb a comma) eqn:Ea; [reflexivity|].
    simpl. exact Ea.
  - exact IH.
Qed.

Lemma TrimLeft_suffix (s : string) : exists p, s = p +:+ strings.TrimLeft s ",".
Proof.
  induction s as [|a s [p IH]]; [now exists ""|].
  simpl. destruct (strings.inCutset "," a).
  - exists (String a p). simpl. now rewrite <- IH.
  - now exists "".
Qed.

Lemma Trim_fixed (s : string) :
  strings.Trim s "," = s -> starts_with_comma s = false /\ ends_with_comma s = false.
Proof.
  unfold strings.Trim. intros E. split.
  - rewrite <- E. apply TrimLeft_no_comma.
  - pose proof (TrimRight_no_comma s) as Hr.
    destruct (TrimLeft_suffix (strings.TrimRight s ",")) as [p Hp].
    rewrite E in Hp.
    assert (Hlen : p = "").
    { pose proof (f_equal String.length Hp) as Hl. rewrite append_length in Hl.
      assert (Hle : (String.length (strings.TrimRight s ",") <= String.length s)%nat).
      { clear. induction s as [|a s IH]; simpl; [lia|].
        destruct (strings.TrimRight s ","); simpl in *;
          [destruct (strings.inCutset "," a); simpl; lia | lia]. }
      destruct p; [reflexivity|]. simpl in Hl. lia. }
    subst p. simpl in Hp. now rewrite Hp in Hr.
Qed.

End StringFacts.

(** ** Lists of entries and the builder loops *)

Section Builders.
Import druidv1alpha1 common configmap.
Context `{Api} `{Constants}.

Lemma terminated_cons (p : string) (l : list string) :
  terminated (p :: l) = p +:+ "," +:+ terminated l.
Proof. reflexivity. Qed.

Lemma terminated_app (l1 l2 : list string) :
  terminated (l1 ++ l2) = terminated l1 +:+ terminated l2.
Proof.
  induction l1 as [|p l1 IH]; [reflexivity|].
  rewrite <- app_comm_cons, !terminated_cons, IH. now rewrite !append_assoc.
Qed.

Lemma terminated_Join (elems : list string) :
  elems <> [] -> terminated elems = strings.Join elems "," +:+ ",".
Proof.
  induction elems as [|p l IH]; [congruence|]. intros _.
  destruct l as [|q l].
  - reflexivity.
  - change (terminated (p :: q :: l)) with (p +:+ "," +:+ terminated (q :: l)).
    change (strings.Join (p :: q :: l) ",") with (p +:+ "," +:+ strings.Join (q :: l) ",").
    rewrite IH by discriminate. now rewrite !append_assoc.
Qed.

(** Trimming the comma-terminated concatenation is trimming the
    comma-joined list. *)
Lemma Trim_terminated (elems : list string) :
  strings.Trim (terminated elems) "," = strings.Trim (strings.Join elems ",") ",".
Proof.
  destruct elems as [|p l]; [reflexivity|].
  rewrite terminated_Join by discriminate.
  unfold strings.Trim. now rewrite TrimRight_app_comma.
Qed.

Lemma writeURLs_spec (name : string) (urls : list string) (b : strings.Builder) :
  fold_left (fun b url => strings.WriteString b (name +:+ "=" +:+ url +:+ ",")) urls b
  = b +:+ terminated (map (fun url => name +:+ "=" +:+ url) urls).
Proof.
  revert b. induction urls as [|u urls IH]; intros b.
  - cbn. now rewrite append_nil_r.
  - cbn [fold_left map]. rewrite IH, terminated_cons. unfold strings.WriteString.
    now rewrite !append_assoc.
Qed.

Lemma writeMembers_spec (members : list Member) (b : strings.Builder) :
  writeMembers b members = b +:+ terminated (flattenMembers members).
Proof.
  unfold writeMembers. revert b.
  induction members as [|m ms IH]; intros b.
  - cbn. now rewrite append_nil_r.
  - cbn [fold_left flattenMembers flat_map]. rewrite IH, writeURLs_spec.
    rewrite terminated_app. now rewrite append_assoc.
Qed.

Lemma writeOrdinals_spec (entry : Z -> string) (n : Z) (fuel : nat) :
  forall (i : Z) (b : strings.Builder),
    (Z.to_nat (n - i) <= fuel)%nat ->
    writeOrdinals fuel i n entry b
    = b +:+ fold_right String.append "" (map entry (zrange i (Z.to_nat (n - i)))).
Proof.
  induction fuel as [|fuel IH]; intros i b Hfuel.
  - replace (Z.to_nat (n - i)) with 0%nat by lia. cbn. now rewrite append_nil_r.
  - cbn [writeOrdinals]. destruct (i <? n) eqn:Hlt.
    + apply Z.ltb_lt in Hlt.
      rewrite IH by lia.
      replace (Z.to_nat (n - i)) with (S (Z.to_nat (n - (i + 1)))) by lia.
      cbn [zrange map fold_right]. unfold strings.WriteString.
      now rewrite append_assoc.
    + apply Z.ltb_ge in Hlt.
      replace (Z.to_nat (n - i)) with 0%nat by lia. cbn. now rewrite append_nil_r.
Qed.

Lemma zrange_seq (i : Z) (k : nat) :
  zrange i k = map (fun j => i + Z.of_nat j) (seq 0 k).
Proof.
  revert i. induction k as [|k IH]; intros i; [reflexivity|].
  cbn [zrange seq map]. rewrite IH, <- seq_shift, map_map.
  f_equal; [lia|]. apply map_ext. intros j. lia.
Qed.

Lemma zrange_ordinals (n : Z) : zrange 0 (Z.to_nat n) = ordinals n.
Proof. rewrite zrange_seq. unfold ordinals. apply map_ext. intros j. lia. Qed.

Lemma ordinalEntry_replicaEntry (etcd : Etcd) (peerScheme : string) (i : Z) :
  ordinalEntry etcd peerScheme i = replicaEntry etcd peerScheme i +:+ ",".
Proof.
  unfold ordinalEntry, replicaEntry. cbv zeta.
  rewrite !append_assoc. reflexivity.
Qed.

Lemma concat_entries (f : Z -> string) (l : list Z) :
  fold_right String.append "" (map (fun i => f i +:+ ",") l) = terminated (map f l).
Proof.
  induction l as [|x l IH]; [reflexivity|].
  cbn [map fold_right]. rewrite IH, terminated_cons. now rewrite append_assoc.
Qed.

End Builders.

(** ** First and last bytes of the generated strings *)

Section Ends.

Lemma ends_clean_append (a b : string) : ends_clean b = true -> ends_clean (a +:+ b) = true.
Proof.
  unfold ends_clean. rewrite last_byte_append.
  destruct (last_byte b); [trivial | discriminate].
Qed.

Lemma ends_clean_no_comma (s : string) : ends_clean s = true -> ends_with_comma s = false.
Proof.
  unfold ends_clean, ends_with_comma.
  destruct (last_byte s); [|reflexivity]. now destruct (Ascii.eqb a comma).
Qed.

Lemma ends_clean_cons (x : ascii) (s : string) :
  Ascii.eqb x comma = false -> s = "" \/ ends_clean s = true ->
  ends_clean (String x s) = true.
Proof.
  intros Hx [-> | Hs].
  - unfold ends_clean. simpl. now rewrite Hx.
  - now apply (ends_clean_append (String x "") s).
Qed.

Lemma uint_ends_clean (d : Decimal.uint) :
  NilEmpty.string_of_uint d = "" \/ ends_clean (NilEmpty.string_of_uint d) = true.
Proof.
  induction d; [now left | right ..]; simpl; now apply ends_clean_cons.
Qed.

Lemma NilZero_uint_ends_clean (d : Decimal.uint) :
  ends_clean (NilZero.string_of_uint d) = true.
Proof.
  destruct d; [reflexivity | ..]; simpl; apply ends_clean_cons;
    solve [reflexivity | apply uint_ends_clean].
Qed.

(** [%d] and [strconv.Itoa] end with a digit. *)
Lemma Itoa_ends_clean (i : Z) : ends_clean (strconv.Itoa i) = true.
Proof.
  unfold strconv.Itoa, NilZero.string_of_int.
  destruct (Z.to_int i) as [d|d].
  - apply NilZero_uint_ends_clean.
  - apply (ends_clean_append (String "-" "")). apply NilZero_uint_ends_clean.
Qed.

Lemma Join_ends_clean (elems : list string) :
  elems <> [] -> Forall (fun e => ends_clean e = true) elems ->
  ends_clean (strings.Join elems ",") = true.
Proof.
  induction elems as [|p l IH]; [congruence|]. intros _ Hall.
  inversion Hall as [|? ? Hp Hl]; subst.
  destruct l as [|q l]; [exact Hp|].
  change (strings.Join (p :: q :: l) ",") with (p +:+ "," +:+ strings.Join (q :: l) ",").
  apply ends_clean_append, ends_clean_append, IH; [discriminate | exact Hl].
Qed.

Lemma starts_with_comma_append (a b : string) :
  a <> "" -> starts_with_comma (a +:+ b) = starts_with_comma a.
Proof. destruct a; [congruence | reflexivity]. Qed.

Lemma Join_starts (p : string) (l : list string) :
  p <> "" -> starts_with_comma (strings.Join (p :: l) ",") = starts_with_comma p.
Proof.
  intros Hp. destruct l as [|q l]; [reflexivity|].
  change (strings.Join (p :: q :: l) ",") with (p +:+ "," +:+ strings.Join (q :: l) ",").
  now apply starts_with_comma_append.
Qed.

(** A [name=...] text begins with a comma exactly when the name does. *)
Lemma starts_with_comma_named (name rest : string) :
  starts_with_comma (name +:+ "=" +:+ rest) = starts_with_comma name.
Proof. destruct name; reflexivity. Qed.

End Ends.

(** ** Configuration synthesis *)

Section Synthesis.
Import druidv1alpha1 common configmap.
Context `{Api} `{Constants}.

Example createEtcdConfig_threeReplicas :
  @createEtcdConfig sample.api sample.constants sample.threeReplicas
  = Some {| Name := "etcd-a1b2c3";
            DataDir := "/var/etcd/data/new.etcd";
            Metrics := "basic";
            SnapshotCount := 75000;
            EnableV2 := false;
            QuotaBackendBytes := 8589934592;
            InitialClusterToken := "etcd-cluster";
            InitialClusterState := "new";
            InitialCluster :=
              "main-0=https://main-0.main-peer.shoot.svc:2380," +:+
              "main-1=https://main-1.main-peer.shoot.svc:2380," +:+
              "main-2=https://main-2.main-peer.shoot.svc:2380";
            AutoCompactionMode := "periodic";
            AutoCompactionRetention := "30m";
            ListenPeerUrls := "https://0.0.0.0:2380";
            ListenClientUrls := "http://0.0.0.0:2379";
            AdvertisePeerUrls := "https@main-peer@shoot@2380";
            AdvertiseClientUrls := "http@main-peer@shoot@2379";
            ClientSecurity := zeroSecurityConfig;
            PeerSecurity :=
              {| CertFile := "/var/etcd/ssl/peerserver/tls.crt";
                 KeyFile := "/var/etcd/ssl/peerserver/tls.key";
                 ClientCertAuth := true;
                 TrustedCAFile := "/var/etcd/ssl/peerca/ca.crt";
                 AutoTLS := false |} |}.
Proof. vm_compute. reflexivity. Qed.

(** Splits [createEtcdConfig etcd = Some cfg] into the cases of the two TLS
    inputs and of the slice, and reads [cfg] off. *)
Ltac create_cases Hc :=
  unfold createEtcdConfig, getSchemeAndSecurityConfig in Hc |- *;
  destruct (ClientUrlTLS _) eqn:?; destruct (PeerUrlTLS _) eqn:?;
  destruct (slice_to _ _) eqn:?;
  cbv beta iota zeta in Hc; inversion Hc; subst; clear Hc.

Lemma createEtcdConfig_total_on (etcd : Etcd) :
  (6 <= String.length (UID (Meta etcd)))%nat ->
  exists cfg, createEtcdConfig etcd = Some cfg.
Proof.
  intros Hlen. unfold createEtcdConfig.
  destruct (getSchemeAndSecurityConfig _ _ _) as [cs csc].
  destruct (getSchemeAndSecurityConfig _ _ _) as [ps psc].
  unfold slice_to. destruct (Nat.leb_spec 6 (String.length (UID (Meta etcd)))); [|lia].
  eexists. reflexivity.
Qed.

Lemma createEtcdConfig_panics_on (etcd : Etcd) :
  (String.length (UID (Meta etcd)) < 6)%nat -> createEtcdConfig etcd = None.
Proof.
  intros Hlen. unfold createEtcdConfig.
  destruct (getSchemeAndSecurityConfig _ _ _) as [cs csc].
  destruct (getSchemeAndSecurityConfig _ _ _) as [ps psc].
  unfold slice_to. destruct (Nat.leb_spec 6 (String.length (UID (Meta etcd)))); [lia|].
  reflexivity.
Qed.

Lemma createEtcdConfig_Name (etcd : Etcd) (cfg : etcdConfig) :
  createEtcdConfig etcd = Some cfg ->
  Name cfg = "etcd-" +:+ substring 0 6 (UID (Meta etcd)).
Proof.
  intros Hc. create_cases Hc;
    match goal with E : slice_to _ _ = Some _ |- _ =>
      unfold slice_to in E; destruct (_ <=? _)%nat; inversion E; subst end;
    reflexivity.
Qed.

Lemma createEtcdConfig_QuotaBackendBytes (etcd : Etcd) (cfg : etcdConfig) :
  createEtcdConfig etcd = Some cfg -> QuotaBackendBytes cfg = getDBQuotaBytes etcd.
Proof. intros Hc. create_cases Hc; reflexivity. Qed.

Lemma createEtcdConfig_InitialCluster (etcd : Etcd) (cfg : etcdConfig) :
  createEtcdConfig etcd = Some cfg ->
  InitialCluster cfg
  = prepareInitialCluster etcd (schemeOf (PeerUrlTLS (Spec_Etcd (Spec etcd)))).
Proof. intros Hc. create_cases Hc; reflexivity. Qed.

Lemma createEtcdConfig_Advertise (etcd : Etcd) (cfg : etcdConfig) :
  createEtcdConfig etcd = Some cfg ->
  AdvertisePeerUrls cfg
  = preparePeerURLs etcd (schemeOf (PeerUrlTLS (Spec_Etcd (Spec etcd))))
      (GetPeerServiceName (Meta etcd)) /\
  AdvertiseClientUrls cfg
  = prepareClientURLs etcd (schemeOf (ClientUrlTLS (Spec_Etcd (Spec etcd))))
      (GetPeerServiceName (Meta etcd)).
Proof. intros Hc. create_cases Hc; split; reflexivity. Qed.

Lemma createEtcdConfig_Listen (etcd : Etcd) (cfg : etcdConfig) :
  createEtcdConfig etcd = Some cfg ->
  ListenPeerUrls cfg
  = schemeOf (PeerUrlTLS (Spec_Etcd (Spec etcd))) +:+ "://0.0.0.0:" +:+
    strconv.Itoa (utils.TypeDeref (ServerPort (Spec_Etcd (Spec etcd))) DefaultPortEtcdPeer) /\
  ListenClientUrls cfg
  = schemeOf (ClientUrlTLS (Spec_Etcd (Spec etcd))) +:+ "://0.0.0.0:" +:+
    strconv.Itoa (utils.TypeDeref (ClientPort (Spec_Etcd (Spec etcd))) DefaultPortEtcdClient).
Proof. intros Hc. create_cases Hc; split; reflexivity. Qed.

Lemma createEtcdConfig_Security (etcd : Etcd) (cfg : etcdConfig) :
  createEtcdConfig etcd = Some cfg ->
  ClientSecurity cfg
  = match snd (getSchemeAndSecurityConfig (ClientUrlTLS (Spec_Etcd (Spec etcd)))
                 VolumeMountPathEtcdCA VolumeMountPathEtcdServerTLS) with
    | Some sc => sc
    | None => zeroSecurityConfig
    end /\
  PeerSecurity cfg
  = match snd (getSchemeAndSecurityConfig (PeerUrlTLS (Spec_Etcd (Spec etcd)))
                 VolumeMountPathEtcdPeerCA VolumeMountPathEtcdPeerServerTLS) with
    | Some sc => sc
    | None => zeroSecurityConfig
    end.
Proof. intros Hc. create_cases Hc; split; reflexivity. Qed.

(** *** Generated and overridden member lists *)

Lemma prepareInitialCluster_generated (etcd : Etcd) (peerScheme : string) :
  druidv1alpha1.InitialCluster (Spec_Etcd (Spec etcd)) = None ->
  prepareInitialCluster etcd peerScheme
  = strings.Trim
      (strings.Join (map (replicaEntry etcd peerScheme) (ordinals (Replicas (Spec etcd)))) ",")
      ",".
Proof.
  intros Hnil. unfold prepareInitialCluster. rewrite Hnil. cbv zeta.
  unfold strings.String_, strings.newBuilder.
  rewrite writeOrdinals_spec by (rewrite Z.sub_0_r; lia).
  rewrite Z.sub_0_r, zrange_ordinals.
  change (String.append "") with (fun s : string => s). cbv beta.
  rewrite (map_ext _ (fun i => replicaEntry etcd peerScheme i +:+ ","))
    by apply ordinalEntry_replicaEntry.
  rewrite concat_entries. apply Trim_terminated.
Qed.

Lemma replicaEntry_ends_clean (etcd : Etcd) (peerScheme : string) (i : Z) :
  ends_clean (replicaEntry etcd peerScheme i) = true.
Proof.
  unfold replicaEntry. cbv zeta.
  repeat apply ends_clean_append. apply Itoa_ends_clean.
Qed.

Lemma replicaEntry_starts (etcd : Etcd) (peerScheme : string) (i : Z) :
  starts_with_comma (replicaEntry etcd peerScheme i)
  = starts_with_comma (GetOrdinalPodName (Meta etcd) i).
Proof. unfold replicaEntry. cbv zeta. apply starts_with_comma_named. Qed.

Lemma replicaEntry_nonempty (etcd : Etcd) (peerScheme : string) (i : Z) :
  replicaEntry etcd peerScheme i <> "".
Proof.
  intros E. pose proof (replicaEntry_ends_clean etcd peerScheme i) as Hc.
  rewrite E in Hc. discriminate Hc.
Qed.

Lemma ordinals_pos (n : Z) : 0 < n -> ordinals n = 0 :: map Z.succ (ordinals (n - 1)).
Proof.
  intros Hn. unfold ordinals.
  replace (Z.to_nat n) with (S (Z.to_nat (n - 1))) by lia.
  cbn [seq map]. f_equal. rewrite <- seq_shift, !map_map.
  apply map_ext. intros j. lia.
Qed.

Lemma ordinals_nonpos (n : Z) : n <= 0 -> ordinals n = [].
Proof. intros Hn. unfold ordinals. now replace (Z.to_nat n) with 0%nat by lia. Qed.

Lemma generated_list_clean (etcd : Etcd) (peerScheme : string) (n : Z) :
  starts_with_comma (GetOrdinalPodName (Meta etcd) 0) = false ->
  let joined := strings.Join (map (replicaEntry etcd peerScheme) (ordinals n)) "," in
  starts_with_comma joined = false /\ ends_with_comma joined = false.
Proof.
  intros Hpod joined. subst joined.
  destruct (Z.le_gt_cases n 0) as [Hn | Hn].
  - rewrite ordinals_nonpos by exact Hn. split; reflexivity.
  - split.
    + rewrite ordinals_pos by lia. cbn [map].
      rewrite Join_starts by apply replicaEntry_nonempty.
      now rewrite replicaEntry_starts.
    + apply ends_clean_no_comma, Join_ends_clean.
      * rewrite ordinals_pos by lia. discriminate.
      * apply List.Forall_forall. intros e He. apply in_map_iff in He as [i [<- _]].
        apply replicaEntry_ends_clean.
Qed.

Lemma override_output (members : list Member) :
  strings.Trim (strings.String_ (writeMembers strings.newBuilder members)) ","
  = strings.Trim (strings.Join (flattenMembers members) ",") ",".
Proof.
  rewrite writeMembers_spec. unfold strings.String_, strings.newBuilder.
  change ("" +:+ ?x) with x. apply Trim_terminated.
Qed.

Lemma pair_clean (name url : string) :
  starts_with_comma name = false -> ends_with_comma url = false ->
  starts_with_comma (name +:+ "=" +:+ url) = false /\
  ends_clean (name +:+ "=" +:+ url) = true.
Proof.
  intros Hname Hurl. split; [now rewrite starts_with_comma_named|].
  unfold ends_clean, ends_with_comma in *. rewrite !last_byte_append.
  destruct (last_byte url) as [c|]; [now rewrite Hurl | reflexivity].
Qed.

Lemma Join_clean (elems : list string) :
  Forall (fun p => starts_with_comma p = false /\ ends_clean p = true) elems ->
  starts_with_comma (strings.Join elems ",") = false /\
  ends_with_comma (strings.Join elems ",") = false.
Proof.
  intros Hall. destruct elems as [|p l]; [split; reflexivity|].
  split.
  - inversion Hall as [|? ? [Hs Hc] _]; subst.
    rewrite Join_starts; [exact Hs|]. intros ->. discriminate Hc.
  - apply ends_clean_no_comma, Join_ends_clean; [discriminate|].
    eapply List.Forall_impl; [|exact Hall]. now intros e [_ He].
Qed.

(** The joined pairs are left as they are by the trimming when no member
    name begins with a comma and no URL ends with one. *)
Lemma flattenMembers_clean (members : list Member) :
  Forall (fun m => starts_with_comma (Member_Name m) = false /\
                   Forall (fun url => ends_with_comma url = false) (URLs m)) members ->
  strings.Trim (strings.Join (flattenMembers members) ",") ","
  = strings.Join (flattenMembers members) ",".
Proof.
  intros Hall. apply Trim_id; apply Join_clean.
  all: induction Hall as [|m ms [Hname Hurls] _ IH]; [constructor|];
    cbn [flattenMembers flat_map]; apply Forall_app; split; [|exact IH];
    clear IH; induction Hurls as [|u us Hu _ IHu]; [constructor|];
    cbn [map]; constructor; [now apply pair_clean | exact IHu].
Qed.

(** *** The claims about configuration synthesis *)

(** The pure synthesis reads the metadata and the spec of the resource and
    nothing else of it. *)
Lemma createEtcdConfig_reads_Meta_and_Spec (etcd1 etcd2 : Etcd) :
  Meta etcd1 = Meta etcd2 -> Spec etcd1 = Spec etcd2 ->
  createEtcdConfig etcd1 = createEtcdConfig etcd2.
Proof.
  destruct etcd1 as [m1 s1 st1], etcd2 as [m2 s2 st2]. cbn [Meta Spec].
  intros -> ->. reflexivity.
Qed.

(** C2, amended. [createEtcdConfig] returns a configuration for every
    resource whose UID has at least six bytes, and the member name is
    ["etcd-"] followed by the first six bytes of the UID. *)
Theorem createEtcdConfig_total_from_six_bytes (etcd : Etcd) :
  (6 <= String.length (UID (Meta etcd)))%nat ->
  exists cfg, createEtcdConfig etcd = Some cfg /\
              Name cfg = "etcd-" +:+ substring 0 6 (UID (Meta etcd)).
Proof.
  intros Hlen. destruct (createEtcdConfig_total_on etcd Hlen) as [cfg Hcfg].
  exists cfg. split; [exact Hcfg | now apply createEtcdConfig_Name].
Qed.

(** C3. TLS duality, per target.  With a nil TLS input the scheme is
    ["http"] and no security block is produced: the helper returns nil, and
    the field of the configuration keeps its zero value.  With a TLS input
    the scheme is ["https"] and the block holds [<serverTLSPath>/tls.crt],
    [<serverTLSPath>/tls.key], client-cert-auth [true] and
    [<caPath>/<dataKey>], the data key defaulting to ["ca.crt"].  The client
    target uses the client mount paths and decides the client listen URL, the
    peer target the peer ones. *)
Theorem tls_duality (etcd : Etcd) (cfg : etcdConfig) :
  createEtcdConfig etcd = Some cfg ->
  (forall caPath serverTLSPath,
      getSchemeAndSecurityConfig None caPath serverTLSPath = ("http", None)) /\
  (forall tls caPath serverTLSPath,
      getSchemeAndSecurityConfig (Some tls) caPath serverTLSPath
      = ("https",
         Some {| CertFile := serverTLSPath +:+ "/tls.crt";
                 KeyFile := serverTLSPath +:+ "/tls.key";
                 ClientCertAuth := true;
                 TrustedCAFile :=
                   caPath +:+ "/" +:+
                   match DataKey (TLSCASecretRef tls) with
                   | Some dataKey => dataKey
                   | None => "ca.crt"
                   end;
                 AutoTLS := false |})) /\
  match ClientUrlTLS (Spec_Etcd (Spec etcd)) with
  | None =>
      ClientSecurity cfg = zeroSecurityConfig /\
      ListenClientUrls cfg
      = "http" +:+ "://0.0.0.0:" +:+
        strconv.Itoa (utils.TypeDeref (ClientPort (Spec_Etcd (Spec etcd))) DefaultPortEtcdClient)
  | Some tls =>
      ClientSecurity cfg
      = {| CertFile := VolumeMountPathEtcdServerTLS +:+ "/tls.crt";
           KeyFile := VolumeMountPathEtcdServerTLS +:+ "/tls.key";
           ClientCertAuth := true;
           TrustedCAFile :=
             VolumeMountPathEtcdCA +:+ "/" +:+
             match DataKey (TLSCASecretRef tls) with
             | Some dataKey => dataKey
             | None => "ca.crt"
             end;
           AutoTLS := false |} /\
      ClientSecurity cfg <> zeroSecurityConfig /\
      ListenClientUrls cfg
      = "https" +:+ "://0.0.0.0:" +:+
        strconv.Itoa (utils.TypeDeref (ClientPort (Spec_Etcd (Spec etcd))) DefaultPortEtcdClient)
  end /\
  match PeerUrlTLS (Spec_Etcd (Spec etcd)) with
  | None =>
      PeerSecurity cfg = zeroSecurityConfig /\
      ListenPeerUrls cfg
      = "http" +:+ "://0.0.0.0:" +:+
        strconv.Itoa (utils.TypeDeref (ServerPort (Spec_Etcd (Spec etcd))) DefaultPortEtcdPeer)
  | Some tls =>
      PeerSecurity cfg
      = {| CertFile := VolumeMountPathEtcdPeerServerTLS +:+ "/tls.crt";
           KeyFile := VolumeMountPathEtcdPeerServerTLS +:+ "/tls.key";
           ClientCertAuth := true;
           TrustedCAFile :=
             VolumeMountPathEtcdPeerCA +:+ "/" +:+
             match DataKey (TLSCASecretRef tls) with
             | Some dataKey => dataKey
             | None => "ca.crt"
             end;
           AutoTLS := false |} /\
      PeerSecurity cfg <> zeroSecurityConfig /\
      ListenPeerUrls cfg
      = "https" +:+ "://0.0.0.0:" +:+
        strconv.Itoa (utils.TypeDeref (ServerPort (Spec_Etcd (Spec etcd))) DefaultPortEtcdPeer)
  end.
Proof.
  intros Hc.
  destruct (createEtcdConfig_Security etcd cfg Hc) as [Hclient Hpeer].
  destruct (createEtcdConfig_Listen etcd cfg Hc) as [Hlp Hlc].
  split; [reflexivity|]. split; [reflexivity|]. split.
  - destruct (ClientUrlTLS (Spec_Etcd (Spec etcd))) as [tls|]; cbn in Hclient, Hlc.
    + repeat split; [exact Hclient | rewrite Hclient; discriminate | exact Hlc].
    + split; [exact Hclient | exact Hlc].
  - destruct (PeerUrlTLS (Spec_Etcd (Spec etcd))) as [tls|]; cbn in Hpeer, Hlp.
    + repeat split; [exact Hpeer | rewrite Hpeer; discriminate | exact Hlp].
    + split; [exact Hpeer | exact Hlp].
Qed.

(** C4. Quota precedence and default: an absent quota gives exactly
    8 * 1024^3 = 8589934592 bytes, a present quota gives its own value; the
    generated QuotaBackendBytes is that number. *)
Theorem quota_default_and_precedence (etcd : Etcd) (cfg : etcdConfig) :
  createEtcdConfig etcd = Some cfg ->
  QuotaBackendBytes cfg = getDBQuotaBytes etcd /\
  (Quota (Spec_Etcd (Spec etcd)) = None ->
     getDBQuotaBytes etcd = 8 * 1024 ^ 3 /\ getDBQuotaBytes etcd = 8589934592) /\
  (forall q, Quota (Spec_Etcd (Spec etcd)) = Some q -> getDBQuotaBytes etcd = Value q).
Proof.
  intros Hc. split; [now apply createEtcdConfig_QuotaBackendBytes|].
  unfold getDBQuotaBytes. split.
  - intros ->. split; reflexivity.
  - intros q ->. reflexivity.
Qed.

Lemma generated_list_ends (etcd : Etcd) (peerScheme : string) (n : Z) :
  ends_with_comma (strings.Join (map (replicaEntry etcd peerScheme) (ordinals n)) ",") = false.
Proof.
  destruct (Z.le_gt_cases n 0) as [Hn | Hn].
  - now rewrite ordinals_nonpos by exact Hn.
  - apply ends_clean_no_comma, Join_ends_clean.
    + rewrite ordinals_pos by lia. discriminate.
    + apply List.Forall_forall. intros e He. apply in_map_iff in He as [i [<- _]].
      apply replicaEntry_ends_clean.
Qed.

Lemma generated_list_starts (etcd : Etcd) (peerScheme : string) (n : Z) :
  0 < n ->
  starts_with_comma (strings.Join (map (replicaEntry etcd peerScheme) (ordinals n)) ",")
  = starts_with_comma (GetOrdinalPodName (Meta etcd) 0).
Proof.
  intros Hn. rewrite ordinals_pos by lia. cbn [map].
  rewrite Join_starts by apply replicaEntry_nonempty.
  apply replicaEntry_starts.
Qed.

(** C5, amended.  Without an override the initial-cluster string is the
    entries
    [<podName>=<peerScheme>://<podName>.<peerService>.<namespace>.svc:<serverPort>]
    of the ordinals 0..n-1 in ascending order, joined by commas, with every
    leading comma of that string trimmed; it never ends with a comma.  It is
    exactly the joined entries if and only if the replica count is zero or
    less or the pod name of ordinal 0 does not begin with a comma; then, for
    three replicas, it is the entries of 0, 1 and 2 separated by commas.  The
    generated configuration holds this string for the peer scheme. *)
Theorem initial_cluster_generated_trimmed (etcd : Etcd) (peerScheme : string) :
  druidv1alpha1.InitialCluster (Spec_Etcd (Spec etcd)) = None ->
  let joined scheme :=
    strings.Join (map (replicaEntry etcd scheme) (ordinals (Replicas (Spec etcd)))) "," in
  prepareInitialCluster etcd peerScheme = strings.TrimLeft (joined peerScheme) "," /\
  ends_with_comma (prepareInitialCluster etcd peerScheme) = false /\
  (prepareInitialCluster etcd peerScheme = joined peerScheme <->
   Replicas (Spec etcd) <= 0 \/
   starts_with_comma (GetOrdinalPodName (Meta etcd) 0) = false) /\
  (Replicas (Spec etcd) = 3 ->
   starts_with_comma (GetOrdinalPodName (Meta etcd) 0) = false ->
   prepareInitialCluster etcd peerScheme
   = replicaEntry etcd peerScheme 0 +:+ "," +:+
     replicaEntry etcd peerScheme 1 +:+ "," +:+
     replicaEntry etcd peerScheme 2) /\
  (forall cfg, createEtcdConfig etcd = Some cfg ->
     configmap.InitialCluster cfg
     = strings.TrimLeft (joined (schemeOf (PeerUrlTLS (Spec_Etcd (Spec etcd))))) ",").
Proof.
  intros Hnil joined.
  assert (Hgen : forall scheme,
             prepareInitialCluster etcd scheme = strings.TrimLeft (joined scheme) ",").
  { intros scheme. rewrite prepareInitialCluster_generated by exact Hnil.
    unfold strings.Trim. now rewrite TrimRight_id by apply generated_list_ends. }
  assert (Hexact : forall scheme,
             Replicas (Spec etcd) <= 0 \/
             starts_with_comma (GetOrdinalPodName (Meta etcd) 0) = false ->
             prepareInitialCluster etcd scheme = joined scheme).
  { intros scheme Hcase. rewrite Hgen. apply TrimLeft_id. subst joined. cbv beta.
    destruct Hcase as [Hn | Hpod].
    - now rewrite ordinals_nonpos by exact Hn.
    - now apply generated_list_clean. }
  split; [apply Hgen|]. split; [|split; [split|split]].
  - rewrite prepareInitialCluster_generated by exact Hnil.
    unfold strings.Trim. rewrite TrimRight_id by apply generated_list_ends.
    pose proof (generated_list_ends etcd peerScheme (Replicas (Spec etcd))) as He.
    revert He. generalize (strings.Join
      (map (replicaEntry etcd peerScheme) (ordinals (Replicas (Spec etcd)))) ",").
    intros s. induction s as [|a s IH]; [reflexivity|].
    intros He. cbn [strings.TrimLeft]. rewrite inCutset_comma.
    destruct (Ascii.eqb a comma) eqn:Ea; [|exact He].
    destruct s as [|b s]; [reflexivity|]. apply IH.
    unfold ends_with_comma in *. now rewrite last_byte_cons in He.
  - intros Heq.
    destruct (Z.le_gt_cases (Replicas (Spec etcd)) 0) as [Hn | Hn]; [now left | right].
    rewrite <- (generated_list_starts etcd peerScheme (Replicas (Spec etcd))) by lia.
    fold (joined peerScheme). rewrite <- Heq, Hgen. apply TrimLeft_no_comma.
  - apply Hexact.
  - intros H3 Hpod. rewrite Hexact by now right. subst joined. cbv beta.
    rewrite H3. reflexivity.
  - intros cfg Hc. rewrite (createEtcdConfig_InitialCluster etcd cfg Hc). apply Hgen.
Qed.

(** C6, amended.  With an explicit override list each of the three
    functions returns the [name=url] pairs, one per member and URL in input
    order, joined by commas, with every leading and every trailing comma of
    that string removed; the result is exactly the joined pairs if and only
    if the joined string neither begins nor ends with a comma.  The replica
    count plays no part.  Without a peer or client override the advertise
    URL is the placeholder [<scheme>@<peerServiceName>@<namespace>@<port>]. *)
Theorem override_flatten_trimmed (etcd : Etcd) (scheme peerSvcName : string)
    (members : list Member) :
  let joined := strings.Join (flattenMembers members) "," in
  (druidv1alpha1.InitialCluster (Spec_Etcd (Spec etcd)) = Some members ->
     prepareInitialCluster etcd scheme = strings.Trim joined "," /\
     forall n, prepareInitialCluster (withReplicas etcd n) scheme
               = prepareInitialCluster etcd scheme) /\
  (PeerURLs (Spec_Etcd (Spec etcd)) = Some members ->
     preparePeerURLs etcd scheme peerSvcName = strings.Trim joined "," /\
     forall n, preparePeerURLs (withReplicas etcd n) scheme peerSvcName
               = preparePeerURLs etcd scheme peerSvcName) /\
  (ClientURLs (Spec_Etcd (Spec etcd)) = Some members ->
     prepareClientURLs etcd scheme peerSvcName = strings.Trim joined "," /\
     forall n, prepareClientURLs (withReplicas etcd n) scheme peerSvcName
               = prepareClientURLs etcd scheme peerSvcName) /\
  (strings.Trim joined "," = joined <->
     starts_with_comma joined = false /\ ends_with_comma joined = false) /\
  (PeerURLs (Spec_Etcd (Spec etcd)) = None ->
     preparePeerURLs etcd scheme peerSvcName
     = scheme +:+ "@" +:+ peerSvcName +:+ "@" +:+ Namespace (Meta etcd) +:+ "@" +:+
       strconv.Itoa (utils.TypeDeref (ServerPort (Spec_Etcd (Spec etcd))) DefaultPortEtcdPeer)) /\
  (ClientURLs (Spec_Etcd (Spec etcd)) = None ->
     prepareClientURLs etcd scheme peerSvcName
     = scheme +:+ "@" +:+ peerSvcName +:+ "@" +:+ Namespace (Meta etcd) +:+ "@" +:+
       strconv.Itoa (utils.TypeDeref (ClientPort (Spec_Etcd (Spec etcd))) DefaultPortEtcdClient)).
Proof.
  intros joined. subst joined. repeat apply conj.
  - intros Hov. unfold prepareInitialCluster. cbn [withReplicas Spec Spec_Etcd].
    rewrite Hov. cbv zeta. split; [apply override_output | reflexivity].
  - intros Hov. unfold preparePeerURLs. cbn [withReplicas Spec Spec_Etcd].
    rewrite Hov. cbv zeta. split; [apply override_output | reflexivity].
  - intros Hov. unfold prepareClientURLs. cbn [withReplicas Spec Spec_Etcd].
    rewrite Hov. cbv zeta. split; [apply override_output | reflexivity].
  - apply Trim_fixed.
  - intros [Hs He]. now apply Trim_id.
  - intros Hnil. unfold preparePeerURLs. now rewrite Hnil.
  - intros Hnil. unfold prepareClientURLs. now rewrite Hnil.
Qed.

(** C9. Without an override and with a replica count of zero or less, the
    generated initial cluster is the empty string, for every peer scheme and
    in every configuration [createEtcdConfig] returns. *)
Theorem initial_cluster_empty_without_replicas (etcd : Etcd) :
  druidv1alpha1.InitialCluster (Spec_Etcd (Spec etcd)) = None ->
  Replicas (Spec etcd) <= 0 ->
  (forall peerScheme, prepareInitialCluster etcd peerScheme = "") /\
  (forall cfg, createEtcdConfig etcd = Some cfg -> configmap.InitialCluster cfg = "").
Proof.
  intros Hnil Hn.
  assert (Hgen : forall scheme, prepareInitialCluster etcd scheme = "").
  { intros scheme. rewrite prepareInitialCluster_generated by exact Hnil.
    now rewrite ordinals_nonpos by exact Hn. }
  split; [exact Hgen|].
  intros cfg Hc. rewrite (createEtcdConfig_InitialCluster etcd cfg Hc). apply Hgen.
Qed.

End Synthesis.

(** ** Synthesis inside the running program *)

Section Program.
Import druidv1alpha1 common program.
Context `{Api} `{Constants}.

(** A call of [createEtcdConfig] writes nothing: neither a package variable
    nor a resource, the one it is given included. *)
Lemma createEtcdConfig_frame (p : ptr) (w w' : World) (cfg : configmap.etcdConfig) :
  createEtcdConfig p w = Some (cfg, w') -> w' = w.
Proof.
  unfold createEtcdConfig, bind, deref, load_defaultDataDir.
  destruct (heap w !! p) as [e|]; cbn [orPanic ret panic]; [|discriminate].
  destruct (configmap.getSchemeAndSecurityConfig (ClientUrlTLS _) _ _) as [cs csc].
  destruct (configmap.getSchemeAndSecurityConfig (PeerUrlTLS _) _ _) as [ps psc].
  destruct (slice_to _ _); cbn [orPanic ret panic]; [|discriminate].
  intros E. now inversion E.
Qed.

(** What a call returns is decided by the metadata and the spec of the
    resource behind the pointer and by the value of [defaultDataDir]. *)
Lemma createEtcdConfig_reads (p1 p2 : ptr) (w1 w2 : World) (etcd1 etcd2 : Etcd) :
  heap w1 !! p1 = Some etcd1 -> heap w2 !! p2 = Some etcd2 ->
  Meta etcd1 = Meta etcd2 -> Spec etcd1 = Spec etcd2 ->
  var_defaultDataDir w1 = var_defaultDataDir w2 ->
  option_map fst (createEtcdConfig p1 w1) = option_map fst (createEtcdConfig p2 w2).
Proof.
  intros H1 H2 Hmeta Hspec Hvar.
  unfold createEtcdConfig, bind, deref, load_defaultDataDir. rewrite H1, H2.
  destruct etcd1 as [m1 s1 st1], etcd2 as [m2 s2 st2]. cbn [Meta Spec] in Hmeta, Hspec.
  subst m2 s2. cbn [orPanic ret panic Meta Spec].
  destruct (configmap.getSchemeAndSecurityConfig (ClientUrlTLS _) _ _) as [cs csc].
  destruct (configmap.getSchemeAndSecurityConfig (PeerUrlTLS _) _ _) as [ps psc].
  destruct (slice_to _ _); cbn [orPanic ret panic option_map fst]; [|reflexivity].
  now rewrite Hvar.
Qed.

(** With [defaultDataDir] at its initializer, a call returns what the
    synthesis function of module [configmap] returns. *)
Lemma createEtcdConfig_pure (p : ptr) (w : World) (etcd : Etcd) :
  heap w !! p = Some etcd ->
  var_defaultDataDir w = configmap.defaultDataDir ->
  option_map fst (createEtcdConfig p w) = configmap.createEtcdConfig etcd.
Proof.
  intros Hp Hvar.
  unfold createEtcdConfig, configmap.createEtcdConfig, bind, deref, load_defaultDataDir.
  rewrite Hp. cbn [orPanic ret panic].
  destruct (configmap.getSchemeAndSecurityConfig (ClientUrlTLS _) _ _) as [cs csc].
  destruct (configmap.getSchemeAndSecurityConfig (PeerUrlTLS _) _ _) as [ps psc].
  destruct (slice_to _ _); cbn [orPanic ret panic option_map fst]; [|reflexivity].
  now rewrite Hvar.
Qed.

(** No operation of the program assigns to [defaultDataDir]. *)
Lemma step_keeps_defaultDataDir (op : Op) (w w' : World) :
  step op w = Some (tt, w') -> var_defaultDataDir w' = var_defaultDataDir w.
Proof.
  destruct op as [p | etcd | | p etcd]; cbn [step].
  - unfold bind. destruct (createEtcdConfig p w) as [[cfg w0]|] eqn:Hc; [|discriminate].
    apply createEtcdConfig_frame in Hc. subst w0. intros E. now inversion E.
  - intros E. now inversion E.
  - unfold RegisterFeatureGates, bind, load_FeatureGate, store_FeatureGate.
    destruct (features.RegisterFeatureGates _); cbn [orPanic ret panic]; [|discriminate].
    intros E. now inversion E.
  - intros E. now inversion E.
Qed.

Lemma run_keeps_defaultDataDir (ops : list Op) (w w' : World) :
  run ops w = Some (tt, w') -> var_defaultDataDir w' = var_defaultDataDir w.
Proof.
  revert w. induction ops as [|op ops IH]; intros w.
  - intros E. now inversion E.
  - cbn [run]. unfold bind at 1.
    destruct (step op w) as [[[] w0]|] eqn:Hstep; [|discriminate].
    intros Hrun. rewrite (IH w0 Hrun). now apply (step_keeps_defaultDataDir op).
Qed.

(** C1. Determinism of config synthesis in the running program.  Take two
    calls of [createEtcdConfig], the second in any world the program reaches
    from the world of the first by calls of [createEtcdConfig], [Check] and
    [RegisterFeatureGates] and assignments to resources, in any number and
    order.  If the two resources have the same metadata and spec, the calls
    have the same outcome: the same document, field by field, or the same
    panic.  Neither call changes the world it runs in.  When
    [defaultDataDir] holds its initial value, the document is the one the
    function [configmap.createEtcdConfig] computes from the resource alone.
    (The helpers of [api/v1alpha1] are functions of their arguments.) *)
Theorem createEtcdConfig_deterministic_across_calls
    (w1 w2 : World) (ops : list Op) (p1 p2 : ptr) (etcd1 etcd2 : Etcd) :
  run ops w1 = Some (tt, w2) ->
  heap w1 !! p1 = Some etcd1 ->
  heap w2 !! p2 = Some etcd2 ->
  Meta etcd1 = Meta etcd2 ->
  Spec etcd1 = Spec etcd2 ->
  option_map fst (createEtcdConfig p1 w1) = option_map fst (createEtcdConfig p2 w2) /\
  (forall cfg w, createEtcdConfig p1 w1 = Some (cfg, w) -> w = w1) /\
  (forall cfg w, createEtcdConfig p2 w2 = Some (cfg, w) -> w = w2) /\
  (var_defaultDataDir w1 = configmap.defaultDataDir ->
   option_map fst (createEtcdConfig p1 w1) = configmap.createEtcdConfig etcd1 /\
   option_map fst (createEtcdConfig p2 w2) = configmap.createEtcdConfig etcd1).
Proof.
  intros Hrun H1 H2 Hmeta Hspec.
  pose proof (run_keeps_defaultDataDir ops w1 w2 Hrun) as Hvar.
  assert (Hsame : option_map fst (createEtcdConfig p1 w1)
                  = option_map fst (createEtcdConfig p2 w2))
    by (apply (createEtcdConfig_reads p1 p2 w1 w2 etcd1 etcd2); auto).
  split; [exact Hsame|]. split; [|split].
  - intros cfg w Hc. now apply (createEtcdConfig_frame p1 w1 w cfg).
  - intros cfg w Hc. now apply (createEtcdConfig_frame p2 w2 w cfg).
  - intros Hinit.
    assert (Hpure : option_map fst (createEtcdConfig p1 w1) = configmap.createEtcdConfig etcd1)
      by now apply createEtcdConfig_pure.
    split; [exact Hpure | now rewrite <- Hsame].
Qed.

End Program.

(** *** The claims at the sample values *)

Section SynthesisAtSamples.
Import druidv1alpha1 common configmap.
#[local] Existing Instance sample.api.
#[local] Existing Instance sample.constants.

(** A first call, then a registration of the feature gates, another call,
    an assignment of the same spec (with another status) to a second
    resource and a readiness check; then the call on the second resource. *)
Lemma createEtcdConfig_deterministic_across_calls_witness :
  let spec := sample.etcdSpec 3 None None (Some (sample.tls None)) None None None in
  let etcdA := sample.etcd "a1b2c3d4" spec [] in
  let etcdB := sample.etcd "a1b2c3d4" spec [sample.member "m0" "Ready"] in
  let w1 :=
    program.init {| featuregate.known := ∅; featuregate.closed := false |}
      {[ 1%positive := etcdA ]} in
  let ops :=
    [ program.CallRegisterFeatureGates; program.CallCreateEtcdConfig 1%positive;
      program.Assign 2%positive etcdB; program.CallCheck etcdB ] in
  exists w2,
    program.run ops w1 = Some (tt, w2) /\
    option_map fst (program.createEtcdConfig 1%positive w1)
    = option_map fst (program.createEtcdConfig 2%positive w2) /\
    option_map fst (program.createEtcdConfig 2%positive w2) = createEtcdConfig etcdA.
Proof.
  intros spec etcdA etcdB w1 ops.
  destruct (program.run ops w1) as [[[] w2]|] eqn:Hrun;
    [|vm_compute in Hrun; discriminate Hrun].
  exists w2. split; [reflexivity|].
  assert (H1 : program.heap w1 !! 1%positive = Some etcdA) by reflexivity.
  assert (H2 : program.heap w2 !! 2%positive = Some etcdB).
  { vm_compute in Hrun. injection Hrun as <-. reflexivity. }
  destruct (createEtcdConfig_deterministic_across_calls w1 w2 ops 1%positive 2%positive etcdA etcdB
              Hrun H1 H2 eq_refl eq_refl) as (Hsame & _ & _ & Hpure).
  split; [exact Hsame | exact (proj2 (Hpure eq_refl))].
Defined.

(** C2 as stated fails: a UID of three bytes makes [etcd.UID[:6]] panic. *)
Lemma createEtcdConfig_short_UID_panics :
  createEtcdConfig
    (sample.etcd "abc" (sample.etcdSpec 3 None None None None None None) [])
  = None.
Proof. reflexivity. Qed.

Lemma createEtcdConfig_total_from_six_bytes_witness :
  (6 <= String.length (UID (Meta sample.threeReplicas)))%nat /\
  exists cfg, createEtcdConfig sample.threeReplicas = Some cfg /\
              Name cfg = "etcd-" +:+ substring 0 6 (UID (Meta sample.threeReplicas)).
Proof.
  assert (Hlen : (6 <= String.length (UID (Meta sample.threeReplicas)))%nat)
    by (vm_compute; lia).
  split; [exact Hlen | exact (createEtcdConfig_total_from_six_bytes sample.threeReplicas Hlen)].
Defined.

(** Client TLS absent, peer TLS present with the default data key. *)
Lemma tls_duality_witness :
  exists cfg,
    createEtcdConfig sample.threeReplicas = Some cfg /\
    ClientSecurity cfg = zeroSecurityConfig /\
    ListenClientUrls cfg = "http://0.0.0.0:2379" /\
    PeerSecurity cfg
    = {| CertFile := "/var/etcd/ssl/peerserver/tls.crt";
         KeyFile := "/var/etcd/ssl/peerserver/tls.key";
         ClientCertAuth := true;
         TrustedCAFile := "/var/etcd/ssl/peerca/ca.crt";
         AutoTLS := false |} /\
    ListenPeerUrls cfg = "https://0.0.0.0:2380".
Proof.
  destruct (createEtcdConfig sample.threeReplicas) as [cfg|] eqn:Hc;
    [|vm_compute in Hc; discriminate Hc].
  exists cfg. split; [reflexivity|].
  destruct (tls_duality sample.threeReplicas cfg Hc) as (_ & _ & Hclient & Hpeer).
  cbn in Hclient, Hpeer.
  destruct Hclient as [Hcs Hcl], Hpeer as (Hps & _ & Hpl).
  repeat split; assumption.
Defined.

Lemma quota_default_and_precedence_witness :
  let etcd :=
    sample.etcd "a1b2c3d4"
      (sample.etcdSpec 3 (Some {| Value := 1000 |}) None None None None None) [] in
  exists cfg, createEtcdConfig etcd = Some cfg /\ QuotaBackendBytes cfg = 1000.
Proof.
  intros etcd.
  destruct (createEtcdConfig etcd) as [cfg|] eqn:Hc;
    [|vm_compute in Hc; discriminate Hc].
  exists cfg. split; [reflexivity|].
  destruct (quota_default_and_precedence etcd cfg Hc) as (Hq & _ & Hsome).
  rewrite Hq. exact (Hsome {| Value := 1000 |} eq_refl).
Defined.

(** C5 as stated fails: with pods named [<name>-<ordinal>] and a resource
    named [",x"], the comma that begins the entry of ordinal 0 is trimmed,
    so the string is not the joined entries. *)
Lemma initial_cluster_leading_comma_trimmed :
  let etcd :=
    {| Meta := {| druidv1alpha1.Name := ",x"; Namespace := "shoot"; UID := "a1b2c3d4" |};
       Spec := sample.etcdSpec 3 None None None None None None;
       Status := {| Members := [] |} |} in
  replicaEntry etcd "http" 0 = ",x-0=http://,x-0.,x-peer.shoot.svc:2380" /\
  prepareInitialCluster etcd "http"
  = "x-0=http://,x-0.,x-peer.shoot.svc:2380,,x-1=http://,x-1.,x-peer.shoot.svc:2380,,x-2=http://,x-2.,x-peer.shoot.svc:2380" /\
  prepareInitialCluster etcd "http"
  <> strings.Join (map (replicaEntry etcd "http") (ordinals (Replicas (Spec etcd)))) ",".
Proof. cbv zeta. repeat split. vm_compute. discriminate. Qed.

Lemma initial_cluster_generated_trimmed_witness :
  prepareInitialCluster sample.threeReplicas "https"
  = "main-0=https://main-0.main-peer.shoot.svc:2380,main-1=https://main-1.main-peer.shoot.svc:2380,main-2=https://main-2.main-peer.shoot.svc:2380".
Proof.
  assert (Hpod : starts_with_comma (GetOrdinalPodName (Meta sample.threeReplicas) 0) = false)
    by (vm_compute; reflexivity).
  destruct (initial_cluster_generated_trimmed sample.threeReplicas "https" eq_refl)
    as (_ & _ & _ & H3 & _).
  rewrite (H3 eq_refl Hpod). vm_compute. reflexivity.
Defined.

(** C6 as stated fails: a member name that begins with a comma loses it,
    so the output is not the joined pairs with the trailing comma removed. *)
Lemma override_leading_comma_trimmed :
  let members := [ {| Member_Name := ",a"; URLs := ["u"] |} ] in
  let etcd :=
    sample.etcd "a1b2c3d4"
      (sample.etcdSpec 3 None None None None (Some members) None) [] in
  preparePeerURLs etcd "http" "main-peer" = "a=u" /\
  strings.Join (flattenMembers members) "," = ",a=u" /\
  preparePeerURLs etcd "http" "main-peer" <> strings.Join (flattenMembers members) ",".
Proof. cbv zeta. repeat split. vm_compute. discriminate. Qed.

(** Two members, three URLs, five replicas: the output is the three pairs. *)
Lemma override_flatten_trimmed_witness :
  let members := [ {| Member_Name := "a"; URLs := ["http://a1:2380"; "http://a2:2380"] |};
                   {| Member_Name := "b"; URLs := ["http://b1:2380"] |} ] in
  let etcd :=
    sample.etcd "a1b2c3d4"
      (sample.etcdSpec 5 None None None None (Some members) None) [] in
  preparePeerURLs etcd "http" "main-peer"
  = "a=http://a1:2380,a=http://a2:2380,b=http://b1:2380".
Proof.
  intros members etcd.
  destruct (override_flatten_trimmed etcd "http" "main-peer" members)
    as (_ & Hpeer & _ & Hexact & _).
  destruct (Hpeer eq_refl) as [Hout _]. rewrite Hout.
  rewrite (proj2 Hexact) by (split; reflexivity).
  vm_compute. reflexivity.
Defined.

Lemma initial_cluster_empty_without_replicas_witness :
  let etcd :=
    sample.etcd "a1b2c3d4" (sample.etcdSpec 0 None None None None None None) [] in
  prepareInitialCluster etcd "http" = "".
Proof.
  intros etcd.
  assert (Hn : Replicas (Spec etcd) <= 0) by (vm_compute; discriminate).
  exact (proj1 (initial_cluster_empty_without_replicas etcd eq_refl Hn) "http").
Defined.

End SynthesisAtSamples.

(** ** The AllMembersReady condition *)

Section AllMembersReady.
Import druidv1alpha1 condition.
Context `{Api}.

Lemma scanMembers_spec (members : list EtcdMemberStatus) (res : result) :
  scanMembers members res
  = if existsb notReady members
    then {| conType := conType res;
            status := ConditionFalse;
            reason := "NotAllMembersReady";
            message := "At least one member is not ready" |}
    else res.
Proof.
  induction members as [|m ms IH]; [reflexivity|].
  cbn [scanMembers existsb]. fold (notReady m).
  destruct (notReady m); [reflexivity | exact IH].
Qed.

Lemma Check_spec (etcd : Etcd) :
  condition.Check etcd
  = match Members (Status etcd) with
    | [] => {| conType := ConditionTypeAllMembersReady;
               status := ConditionUnknown;
               reason := "NoMembersInStatus";
               message := "Cannot determine readiness since status has no members" |}
    | _ :: _ =>
        if existsb notReady (Members (Status etcd))
        then {| conType := ConditionTypeAllMembersReady;
                status := ConditionFalse;
                reason := "NotAllMembersReady";
                message := "At least one member is not ready" |}
        else {| conType := ConditionTypeAllMembersReady;
                status := ConditionTrue;
                reason := "AllMembersReady";
                message := "All members are ready" |}
    end.
Proof.
  unfold Check. rewrite scanMembers_spec.
  destruct (Members (Status etcd)); reflexivity.
Qed.

Lemma notReady_true (m : EtcdMemberStatus) :
  notReady m = true <-> Member_Status m <> EtcdMemberStatusReady.
Proof.
  unfold notReady. rewrite negb_true_iff. apply String.eqb_neq.
Qed.

Lemma existsb_notReady_false (members : list EtcdMemberStatus) :
  (forall m, In m members -> Member_Status m = EtcdMemberStatusReady) ->
  existsb notReady members = false.
Proof.
  intros Hall. apply not_true_is_false. intros Hex.
  apply existsb_exists in Hex as [m [Hin Hm]].
  apply notReady_true in Hm. apply Hm, Hall, Hin.
Qed.

Lemma existsb_Permutation {A : Type} (f : A -> bool) (l1 l2 : list A) :
  Permutation l1 l2 -> existsb f l1 = existsb f l2.
Proof.
  induction 1 as [|x l l' _ IH|x y l|l l' l'' _ IH1 _ IH2].
  - reflexivity.
  - cbn [existsb]. now rewrite IH.
  - cbn [existsb]. now destruct (f x), (f y).
  - now rewrite IH1.
Qed.

(** C7. Tri-state semantics of AllMembersReady: the condition type is
    always AllMembersReady; the status is Unknown for an empty member list,
    False for a non-empty list with a member that is not ready, True for a
    non-empty list of ready members; and Unknown only for the empty list. *)
Theorem Check_tristate (etcd : Etcd) :
  conType (Check etcd) = ConditionTypeAllMembersReady /\
  (Members (Status etcd) = [] -> status (Check etcd) = ConditionUnknown) /\
  (Members (Status etcd) <> [] ->
   (exists m, In m (Members (Status etcd)) /\ Member_Status m <> EtcdMemberStatusReady) ->
   status (Check etcd) = ConditionFalse) /\
  (Members (Status etcd) <> [] ->
   (forall m, In m (Members (Status etcd)) -> Member_Status m = EtcdMemberStatusReady) ->
   status (Check etcd) = ConditionTrue) /\
  (status (Check etcd) = ConditionUnknown -> Members (Status etcd) = []).
Proof.
  rewrite Check_spec. destruct (Members (Status etcd)) as [|m ms] eqn:Hms.
  - repeat split; congruence.
  - split; [now destruct (existsb notReady (m :: ms))|].
    split; [discriminate|]. split; [|split].
    + intros _ [x [Hin Hx]].
      assert (Hex : existsb notReady (m :: ms) = true).
      { apply existsb_exists. exists x. split; [exact Hin | now apply notReady_true]. }
      now rewrite Hex.
    + intros _ Hall. now rewrite (existsb_notReady_false (m :: ms) Hall).
    + destruct (existsb notReady (m :: ms)); discriminate.
Qed.

(** C8. Order independence of AllMembersReady: resources whose member
    lists are permutations of each other get the same condition, type,
    status, reason and message; more generally the condition is decided by
    whether the list is empty and whether it holds a member that is not
    ready. *)
Theorem Check_permutation (etcd1 etcd2 : Etcd) :
  (Permutation (Members (Status etcd1)) (Members (Status etcd2)) ->
   condition.Check etcd1 = Check etcd2) /\
  ((Members (Status etcd1) = [] <-> Members (Status etcd2) = []) ->
   existsb notReady (Members (Status etcd1)) = existsb notReady (Members (Status etcd2)) ->
   condition.Check etcd1 = Check etcd2).
Proof.
  assert (Hdep : (Members (Status etcd1) = [] <-> Members (Status etcd2) = []) ->
                 existsb notReady (Members (Status etcd1))
                 = existsb notReady (Members (Status etcd2)) ->
                 condition.Check etcd1 = Check etcd2).
  { intros Hempty Hex. rewrite !Check_spec, Hex.
    destruct (Members (Status etcd1)) as [|m1 ms1], (Members (Status etcd2)) as [|m2 ms2];
      try reflexivity.
    - destruct Hempty as [Hempty _]. discriminate (Hempty eq_refl).
    - destruct Hempty as [_ Hempty]. discriminate (Hempty eq_refl). }
  split; [|exact Hdep].
  intros Hperm. apply Hdep.
  - split; intros Hnil; rewrite Hnil in Hperm.
    + now apply Permutation_nil.
    + now apply Permutation_sym, Permutation_nil in Hperm.
  - now apply existsb_Permutation.
Qed.

End AllMembersReady.

Section AllMembersReadyAtSamples.
Import druidv1alpha1 condition.
#[local] Existing Instance sample.api.

Example Check_three_members :
  status (Check (sample.etcd "a1b2c3d4" (sample.etcdSpec 3 None None None None None None) []))
  = ConditionUnknown /\
  status (Check (sample.etcd "a1b2c3d4" (sample.etcdSpec 3 None None None None None None)
                   [sample.member "m0" "Ready"; sample.member "m1" "NotReady";
                    sample.member "m2" "Ready"]))
  = ConditionFalse /\
  status (Check (sample.etcd "a1b2c3d4" (sample.etcdSpec 3 None None None None None None)
                   [sample.member "m0" "Ready"; sample.member "m1" "Ready";
                    sample.member "m2" "Ready"]))
  = ConditionTrue.
Proof. repeat split. Qed.

Lemma Check_tristate_witness :
  status (Check (sample.etcd "a1b2c3d4" (sample.etcdSpec 3 None None None None None None)
                   [sample.member "m0" "Ready"; sample.member "m1" "NotReady";
                    sample.member "m2" "Ready"]))
  = ConditionFalse.
Proof.
  apply (Check_tristate
           (sample.etcd "a1b2c3d4" (sample.etcdSpec 3 None None None None None None)
              [sample.member "m0" "Ready"; sample.member "m1" "NotReady";
               sample.member "m2" "Ready"])).
  - discriminate.
  - exists (sample.member "m1" "NotReady"). split.
    + cbn. right. left. reflexivity.
    + discriminate.
Defined.

Lemma Check_permutation_witness :
  condition.Check (sample.etcd "a1b2c3d4" (sample.etcdSpec 3 None None None None None None)
           [sample.member "m0" "Ready"; sample.member "m1" "NotReady"])
  = Check (sample.etcd "a1b2c3d4" (sample.etcdSpec 3 None None None None None None)
             [sample.member "m1" "NotReady"; sample.member "m0" "Ready"]).
Proof.
  apply (proj1 (Check_permutation _ _)). cbn. apply perm_swap.
Defined.

End AllMembersReadyAtSamples.

(** ** Feature gates *)

Section FeatureGates.
Import featuregate features.

Lemma featureGates_list :
  map_to_list featureGates
  = [(BackupCompaction, {| Default := false; PreRelease := Alpha |})].
Proof. unfold featureGates. apply map_to_list_singleton. Qed.

Lemma Add_featureGates (g : featureGate) :
  Add g featureGates
  = if closed g then None
    else if compatible (known g) BackupCompaction {| Default := false; PreRelease := Alpha |}
    then Some {| known := <[BackupCompaction := {| Default := false; PreRelease := Alpha |}]> (known g);
                 closed := closed g |}
    else None.
Proof.
  unfold Add. rewrite featureGates_list. cbn [forallb]. rewrite andb_true_r.
  unfold featureGates. now rewrite <- insert_union_singleton_l.
Qed.

(** C10. The registry declares exactly one gate, ["BackupCompaction"],
    disabled by default and of stage alpha.  [RegisterFeatureGates] passes
    exactly this map to [Add] of the shared gate: on an open gate that does
    not know the name yet it succeeds and makes this one feature known, and
    whenever it succeeds the gate differs from the earlier one in this entry
    only. *)
Theorem RegisterFeatureGates_adds_BackupCompaction (g : featureGate) :
  BackupCompaction = "BackupCompaction" /\
  featureGates !! BackupCompaction = Some {| Default := false; PreRelease := Alpha |} /\
  (forall name, name <> BackupCompaction -> featureGates !! name = None) /\
  size featureGates = 1%nat /\
  RegisterFeatureGates g = utilruntime.Must (Add g featureGates) /\
  (closed g = false -> known g !! BackupCompaction = None ->
   RegisterFeatureGates g
   = Some {| known := <[BackupCompaction := {| Default := false; PreRelease := Alpha |}]> (known g);
             closed := false |}) /\
  (forall g', RegisterFeatureGates g = Some g' ->
     known g' = <[BackupCompaction := {| Default := false; PreRelease := Alpha |}]> (known g) /\
     closed g' = closed g /\
     forall name, name <> BackupCompaction -> known g' !! name = known g !! name).
Proof.
  split; [reflexivity|]. split; [apply lookup_singleton_eq|].
  split; [intros name Hne; apply lookup_singleton_ne; congruence|].
  split; [apply map_size_singleton|]. split; [reflexivity|]. split.
  - intros Hopen Hnew. unfold RegisterFeatureGates, utilruntime.Must.
    rewrite Add_featureGates, Hopen. unfold compatible. now rewrite Hnew.
  - intros g' Hreg. unfold RegisterFeatureGates, utilruntime.Must in Hreg.
    rewrite Add_featureGates in Hreg.
    destruct (closed g); [discriminate|].
    destruct (compatible _ _ _); [|discriminate].
    inversion Hreg; subst. cbn [known closed]. repeat split.
    intros name Hne. apply lookup_insert_ne. congruence.
Qed.

Lemma RegisterFeatureGates_adds_BackupCompaction_witness :
  RegisterFeatureGates {| known := ∅; closed := false |}
  = Some {| known := {[ "BackupCompaction" := {| Default := false; PreRelease := Alpha |} ]};
            closed := false |}.
Proof.
  destruct (RegisterFeatureGates_adds_BackupCompaction {| known := ∅; closed := false |})
    as (_ & _ & _ & _ & _ & Hreg & _).
  rewrite (Hreg eq_refl (lookup_empty _)). reflexivity.
Defined.

End FeatureGates.

(** * Further properties of the code *)

(** ** More on trimming, joining and slicing *)

Section MoreStringFacts.

Lemma ends_with_comma_cons (a : ascii) (s : string) :
  s <> "" -> ends_with_comma (String a s) = ends_with_comma s.
Proof. intros Hs. unfold ends_with_comma. now rewrite last_byte_cons. Qed.

Lemma TrimLeft_ends_no_comma (s : string) :
  ends_with_comma s = false -> ends_with_comma (strings.TrimLeft s ",") = false.
Proof.
  induction s as [|a s IH]; [reflexivity|].
  intros He. cbn [strings.TrimLeft]. rewrite inCutset_comma.
  destruct (Ascii.eqb a comma) eqn:Ea; [|exact He].
  destruct s as [|b s]; [reflexivity|].
  apply IH. now rewrite ends_with_comma_cons in He.
Qed.

Lemma TrimLeft_ends_clean (s : string) :
  ends_clean s = true -> ends_clean (strings.TrimLeft s ",") = true.
Proof.
  induction s as [|a s IH]; [discriminate|].
  intros He. cbn [strings.TrimLeft]. rewrite inCutset_comma.
  destruct (Ascii.eqb a comma) eqn:Ea; [|exact He].
  destruct s as [|b s].
  - unfold ends_clean in He. cbn in He. now rewrite Ea in He.
  - apply IH. unfold ends_clean in *. now rewrite last_byte_cons in He.
Qed.

(** What [strings.Trim] returns neither begins nor ends with a comma. *)
Lemma Trim_no_commas (s : string) :
  starts_with_comma (strings.Trim s ",") = false /\
  ends_with_comma (strings.Trim s ",") = false.
Proof.
  unfold strings.Trim. split; [apply TrimLeft_no_comma|].
  apply TrimLeft_ends_no_comma, TrimRight_no_comma.
Qed.

Lemma ends_clean_nonempty (s : string) : ends_clean s = true -> s <> "".
Proof. intros Hc ->. discriminate Hc. Qed.

Lemma Trim_ends_clean (s : string) :
  ends_clean s = true -> strings.Trim s "," <> "".
Proof.
  intros Hc. unfold strings.Trim.
  rewrite TrimRight_id by now apply ends_clean_no_comma.
  now apply ends_clean_nonempty, TrimLeft_ends_clean.
Qed.

Lemma Join_snoc (l : list string) (x sep : string) :
  l <> [] -> strings.Join (l ++ [x]) sep = strings.Join l sep +:+ sep +:+ x.
Proof.
  induction l as [|p l IH]; [congruence|]. intros _.
  destruct l as [|q l]; [reflexivity|].
  change (strings.Join ((p :: q :: l) ++ [x]) sep)
    with (p +:+ sep +:+ strings.Join ((q :: l) ++ [x]) sep).
  change (strings.Join (p :: q :: l) sep) with (p +:+ sep +:+ strings.Join (q :: l) sep).
  rewrite IH by discriminate. now rewrite !append_assoc.
Qed.

Lemma ordinals_succ (n : Z) : 0 <= n -> ordinals (n + 1) = ordinals n ++ [n].
Proof.
  intros Hn. unfold ordinals.
  replace (Z.to_nat (n + 1)) with (Z.to_nat n + 1)%nat by lia.
  rewrite seq_app, map_app. cbn [seq map]. do 2 f_equal. lia.
Qed.

Lemma substring_prefix_length (n : nat) (s : string) :
  (n <= String.length s)%nat -> String.length (substring 0 n s) = n.
Proof.
  revert s. induction n as [|n IH]; intros s Hn.
  - now destruct s.
  - destruct s as [|a s]; [cbn in Hn; lia|].
    cbn [substring String.length] in *. rewrite IH; [reflexivity | lia].
Qed.

End MoreStringFacts.

(** ** Further properties of configuration synthesis *)

Section SynthesisFurther.
Import druidv1alpha1 common configmap.
Context `{Api} `{Constants}.

Lemma createEtcdConfig_Some_length (etcd : Etcd) (cfg : etcdConfig) :
  createEtcdConfig etcd = Some cfg -> (6 <= String.length (UID (Meta etcd)))%nat.
Proof.
  intros Hc. destruct (Nat.le_gt_cases 6 (String.length (UID (Meta etcd)))) as [Hle|Hlt];
    [exact Hle|].
  rewrite (createEtcdConfig_panics_on etcd Hlt) in Hc. discriminate Hc.
Qed.

Lemma prepareInitialCluster_joined (etcd : Etcd) (peerScheme : string) :
  druidv1alpha1.InitialCluster (Spec_Etcd (Spec etcd)) = None ->
  starts_with_comma (GetOrdinalPodName (Meta etcd) 0) = false ->
  prepareInitialCluster etcd peerScheme
  = strings.Join (map (replicaEntry etcd peerScheme) (ordinals (Replicas (Spec etcd)))) ",".
Proof.
  intros Hnil Hpod. rewrite prepareInitialCluster_generated by exact Hnil.
  destruct (generated_list_clean etcd peerScheme (Replicas (Spec etcd)) Hpod) as [Hs He].
  now apply Trim_id.
Qed.

Lemma prepareInitialCluster_trimmed (etcd : Etcd) (peerScheme : string) :
  exists s, prepareInitialCluster etcd peerScheme = strings.Trim s ",".
Proof. unfold prepareInitialCluster. cbv zeta. eexists. reflexivity. Qed.

Lemma placeholder_no_commas (tlsConfig : option TLSConfig) (svc ns : string) (port : Z) :
  let token := schemeOf tlsConfig +:+ "@" +:+ svc +:+ "@" +:+ ns +:+ "@" +:+ strconv.Itoa port in
  starts_with_comma token = false /\ ends_with_comma token = false.
Proof.
  cbv zeta. split.
  - now destruct tlsConfig.
  - apply ends_clean_no_comma. repeat apply ends_clean_append. apply Itoa_ends_clean.
Qed.

(** X1. [createEtcdConfig] panics exactly on the resources whose UID is
    shorter than six bytes: that is its only failure. *)
Theorem createEtcdConfig_panics_iff_short_UID (etcd : Etcd) :
  createEtcdConfig etcd = None <-> (String.length (UID (Meta etcd)) < 6)%nat.
Proof.
  split.
  - intros Hnone.
    destruct (Nat.le_gt_cases 6 (String.length (UID (Meta etcd)))) as [Hle|Hlt];
      [|exact Hlt].
    destruct (createEtcdConfig_total_on etcd Hle) as [cfg Hcfg]. congruence.
  - apply createEtcdConfig_panics_on.
Qed.

(** X2. The member name is decided by the first six bytes of the UID alone:
    two synthesized configurations have the same name exactly when the UIDs
    agree on their first six bytes, and the name is always eleven bytes
    long. *)
Theorem member_name_from_UID_prefix (etcd1 etcd2 : Etcd) (cfg1 cfg2 : etcdConfig) :
  createEtcdConfig etcd1 = Some cfg1 ->
  createEtcdConfig etcd2 = Some cfg2 ->
  (Name cfg1 = Name cfg2 <->
   substring 0 6 (UID (Meta etcd1)) = substring 0 6 (UID (Meta etcd2))) /\
  String.length (Name cfg1) = 11%nat.
Proof.
  intros H1 H2.
  rewrite (createEtcdConfig_Name etcd1 cfg1 H1), (createEtcdConfig_Name etcd2 cfg2 H2).
  split; [split|].
  - intros E. now apply (String.app_inj "etcd-") in E.
  - now intros ->.
  - rewrite append_length, substring_prefix_length;
      [reflexivity | now apply (createEtcdConfig_Some_length etcd1 cfg1)].
Qed.

(** X3. Without overrides the advertise URLs of the synthesized
    configuration are placeholders built per target: the peer one from the
    peer scheme and the server port, the client one from the client scheme
    and the client port, both naming the peer service and the namespace; each
    uses the scheme and port of its target's listen URL, and the scheme is
    ["https"] exactly when the target's security block has client-cert-auth
    set. *)
Theorem advertise_placeholders (etcd : Etcd) (cfg : etcdConfig) :
  createEtcdConfig etcd = Some cfg ->
  PeerURLs (Spec_Etcd (Spec etcd)) = None ->
  ClientURLs (Spec_Etcd (Spec etcd)) = None ->
  exists peerScheme clientScheme serverPort clientPort,
    serverPort = utils.TypeDeref (ServerPort (Spec_Etcd (Spec etcd))) DefaultPortEtcdPeer /\
    clientPort = utils.TypeDeref (ClientPort (Spec_Etcd (Spec etcd))) DefaultPortEtcdClient /\
    ListenPeerUrls cfg = peerScheme +:+ "://0.0.0.0:" +:+ strconv.Itoa serverPort /\
    AdvertisePeerUrls cfg
    = peerScheme +:+ "@" +:+ GetPeerServiceName (Meta etcd) +:+ "@" +:+
      Namespace (Meta etcd) +:+ "@" +:+ strconv.Itoa serverPort /\
    ListenClientUrls cfg = clientScheme +:+ "://0.0.0.0:" +:+ strconv.Itoa clientPort /\
    AdvertiseClientUrls cfg
    = clientScheme +:+ "@" +:+ GetPeerServiceName (Meta etcd) +:+ "@" +:+
      Namespace (Meta etcd) +:+ "@" +:+ strconv.Itoa clientPort /\
    (peerScheme = "https" <-> ClientCertAuth (PeerSecurity cfg) = true) /\
    (peerScheme = "http" <-> ClientCertAuth (PeerSecurity cfg) = false) /\
    (clientScheme = "https" <-> ClientCertAuth (ClientSecurity cfg) = true) /\
    (clientScheme = "http" <-> ClientCertAuth (ClientSecurity cfg) = false).
Proof.
  intros Hc Hpeer Hclient.
  destruct (createEtcdConfig_Listen etcd cfg Hc) as [Hlp Hlc].
  destruct (createEtcdConfig_Advertise etcd cfg Hc) as [Hap Hac].
  destruct (createEtcdConfig_Security etcd cfg Hc) as [Hcs Hps].
  unfold preparePeerURLs in Hap. unfold prepareClientURLs in Hac.
  rewrite Hpeer in Hap. rewrite Hclient in Hac.
  exists (schemeOf (PeerUrlTLS (Spec_Etcd (Spec etcd)))),
         (schemeOf (ClientUrlTLS (Spec_Etcd (Spec etcd)))).
  do 2 eexists. split; [reflexivity|]. split; [reflexivity|].
  split; [exact Hlp|]. split; [exact Hap|]. split; [exact Hlc|]. split; [exact Hac|].
  rewrite Hcs, Hps. unfold getSchemeAndSecurityConfig.
  destruct (PeerUrlTLS (Spec_Etcd (Spec etcd))), (ClientUrlTLS (Spec_Etcd (Spec etcd)));
    cbn; repeat split; intros; congruence.
Qed.

(** X5. No generated list begins or ends with a comma, whatever the spec:
    the initial cluster, the advertise peer URLs and the advertise client
    URLs of every synthesized configuration, with or without overrides, and
    whatever bytes the names and URLs hold. *)
Theorem lists_never_begin_or_end_with_comma (etcd : Etcd) (cfg : etcdConfig) :
  createEtcdConfig etcd = Some cfg ->
  (starts_with_comma (configmap.InitialCluster cfg) = false /\
   ends_with_comma (configmap.InitialCluster cfg) = false) /\
  (starts_with_comma (AdvertisePeerUrls cfg) = false /\
   ends_with_comma (AdvertisePeerUrls cfg) = false) /\
  (starts_with_comma (AdvertiseClientUrls cfg) = false /\
   ends_with_comma (AdvertiseClientUrls cfg) = false).
Proof.
  intros Hc.
  rewrite (createEtcdConfig_InitialCluster etcd cfg Hc).
  destruct (createEtcdConfig_Advertise etcd cfg Hc) as [-> ->].
  split; [|split].
  - destruct (prepareInitialCluster_trimmed etcd (schemeOf (PeerUrlTLS (Spec_Etcd (Spec etcd)))))
      as [s ->].
    apply Trim_no_commas.
  - unfold preparePeerURLs. destruct (PeerURLs (Spec_Etcd (Spec etcd))).
    + apply Trim_no_commas.
    + apply placeholder_no_commas.
  - unfold prepareClientURLs. destruct (ClientURLs (Spec_Etcd (Spec etcd))).
    + apply Trim_no_commas.
    + apply placeholder_no_commas.
Qed.

(** X6. Without an override the generated initial cluster is empty exactly
    when the replica count is zero or negative; one replica is enough for a
    non-empty string, whatever the pod names are. *)
Theorem generated_initial_cluster_empty_iff (etcd : Etcd) (peerScheme : string) :
  druidv1alpha1.InitialCluster (Spec_Etcd (Spec etcd)) = None ->
  (prepareInitialCluster etcd peerScheme = "" <-> Replicas (Spec etcd) <= 0).
Proof.
  intros Hnil. rewrite prepareInitialCluster_generated by exact Hnil. split.
  - intros Hempty.
    destruct (Z.le_gt_cases (Replicas (Spec etcd)) 0) as [Hle|Hgt]; [exact Hle|].
    exfalso. revert Hempty. apply Trim_ends_clean, Join_ends_clean.
    + rewrite ordinals_pos by lia. discriminate.
    + apply List.Forall_forall. intros e He. apply in_map_iff in He as [i [<- _]].
      apply replicaEntry_ends_clean.
  - intros Hle. now rewrite ordinals_nonpos by exact Hle.
Qed.

(** X7. Scaling up by one replica appends one entry: without an override,
    and with a pod name for ordinal 0 that does not begin with a comma, the
    initial cluster for [n + 1] replicas ([n >= 1]) is the one for [n]
    replicas followed by a comma and the entry of ordinal [n]; the entries of
    the earlier ordinals do not change. *)
Theorem initial_cluster_scale_up (etcd : Etcd) (peerScheme : string) (n : Z) :
  druidv1alpha1.InitialCluster (Spec_Etcd (Spec etcd)) = None ->
  starts_with_comma (GetOrdinalPodName (Meta etcd) 0) = false ->
  1 <= n ->
  prepareInitialCluster (withReplicas etcd (n + 1)) peerScheme
  = prepareInitialCluster (withReplicas etcd n) peerScheme +:+ "," +:+
    replicaEntry etcd peerScheme n.
Proof.
  intros Hnil Hpod Hn.
  rewrite !prepareInitialCluster_joined by assumption.
  cbn [withReplicas Spec Replicas].
  change (replicaEntry (withReplicas etcd (n + 1))) with (replicaEntry etcd).
  change (replicaEntry (withReplicas etcd n)) with (replicaEntry etcd).
  rewrite ordinals_succ by lia. rewrite map_app. cbn [map].
  apply Join_snoc. rewrite ordinals_pos by lia. discriminate.
Qed.

(** X8. An override that is present but holds no URL (an empty list, or
    members without URLs) gives the empty string: the generated path and the
    placeholder are not used as a fallback, whatever the replica count. *)
Theorem override_without_URLs_is_empty (etcd : Etcd) (scheme peerSvcName : string)
    (members : list Member) :
  Forall (fun m => URLs m = []) members ->
  (druidv1alpha1.InitialCluster (Spec_Etcd (Spec etcd)) = Some members ->
   prepareInitialCluster etcd scheme = "") /\
  (PeerURLs (Spec_Etcd (Spec etcd)) = Some members ->
   preparePeerURLs etcd scheme peerSvcName = "") /\
  (ClientURLs (Spec_Etcd (Spec etcd)) = Some members ->
   prepareClientURLs etcd scheme peerSvcName = "").
Proof.
  intros Hall.
  assert (Hflat : flattenMembers members = []).
  { induction Hall as [|m ms Hm _ IH]; [reflexivity|].
    cbn [flattenMembers flat_map]. rewrite Hm. exact IH. }
  assert (Hout : strings.Trim (strings.String_ (writeMembers strings.newBuilder members)) ","
                 = "").
  { rewrite override_output, Hflat. reflexivity. }
  repeat split; intros Hov.
  - unfold prepareInitialCluster. rewrite Hov. exact Hout.
  - unfold preparePeerURLs. rewrite Hov. exact Hout.
  - unfold prepareClientURLs. rewrite Hov. exact Hout.
Qed.

(** X9. Overrides reach the synthesized configuration untouched by the rest
    of the spec: two resources with the same override list get the same
    initial cluster (respectively advertise peer URLs, advertise client URLs),
    whatever their TLS settings, ports, names, namespaces and replica
    counts. *)
Theorem overrides_ignore_rest_of_spec (etcd1 etcd2 : Etcd) (cfg1 cfg2 : etcdConfig)
    (members : list Member) :
  createEtcdConfig etcd1 = Some cfg1 ->
  createEtcdConfig etcd2 = Some cfg2 ->
  (druidv1alpha1.InitialCluster (Spec_Etcd (Spec etcd1)) = Some members ->
   druidv1alpha1.InitialCluster (Spec_Etcd (Spec etcd2)) = Some members ->
   configmap.InitialCluster cfg1 = configmap.InitialCluster cfg2) /\
  (PeerURLs (Spec_Etcd (Spec etcd1)) = Some members ->
   PeerURLs (Spec_Etcd (Spec etcd2)) = Some members ->
   AdvertisePeerUrls cfg1 = AdvertisePeerUrls cfg2) /\
  (ClientURLs (Spec_Etcd (Spec etcd1)) = Some members ->
   ClientURLs (Spec_Etcd (Spec etcd2)) = Some members ->
   AdvertiseClientUrls cfg1 = AdvertiseClientUrls cfg2).
Proof.
  intros H1 H2.
  rewrite (createEtcdConfig_InitialCluster etcd1 cfg1 H1),
          (createEtcdConfig_InitialCluster etcd2 cfg2 H2).
  destruct (createEtcdConfig_Advertise etcd1 cfg1 H1) as [-> ->].
  destruct (createEtcdConfig_Advertise etcd2 cfg2 H2) as [-> ->].
  repeat split; intros Ho1 Ho2.
  - unfold prepareInitialCluster. now rewrite Ho1, Ho2.
  - unfold preparePeerURLs. now rewrite Ho1, Ho2.
  - unfold prepareClientURLs. now rewrite Ho1, Ho2.
Qed.

End SynthesisFurther.

(** ** Further properties of the AllMembersReady condition *)

Section AllMembersReadyFurther.
Import druidv1alpha1 condition.
Context `{Api}.

Lemma existsb_notReady_statuses (l1 l2 : list EtcdMemberStatus) :
  map Member_Status l1 = map Member_Status l2 ->
  existsb notReady l1 = existsb notReady l2.
Proof.
  revert l2. induction l1 as [|m1 l1 IH]; intros [|m2 l2] E; try discriminate E;
    [reflexivity|].
  cbn [map] in E. injection E as Hm Hl. cbn [existsb]. rewrite (IH l2 Hl).
  unfold notReady. now rewrite Hm.
Qed.

Lemma status_True_iff (etcd : Etcd) :
  status (condition.Check etcd) = ConditionTrue <->
  Members (Status etcd) <> [] /\ existsb notReady (Members (Status etcd)) = false.
Proof.
  rewrite Check_spec. destruct (Members (Status etcd)) as [|m ms].
  - cbn. split; [discriminate | intros [Hne _]; congruence].
  - destruct (existsb notReady (m :: ms)); cbn; split;
      solve [discriminate | intros [_ Hx]; discriminate Hx | intros _; split; congruence].
Qed.

(** X10. The condition is always one of three fixed records: status
    Unknown goes with reason ["NoMembersInStatus"], False with
    ["NotAllMembersReady"], True with ["AllMembersReady"], each with its own
    message; no other combination of status, reason and message is ever
    returned. *)
Theorem Check_result_forms (etcd : Etcd) :
  condition.Check etcd
  = {| conType := ConditionTypeAllMembersReady;
       status := ConditionUnknown;
       reason := "NoMembersInStatus";
       message := "Cannot determine readiness since status has no members" |} \/
  condition.Check etcd
  = {| conType := ConditionTypeAllMembersReady;
       status := ConditionFalse;
       reason := "NotAllMembersReady";
       message := "At least one member is not ready" |} \/
  condition.Check etcd
  = {| conType := ConditionTypeAllMembersReady;
       status := ConditionTrue;
       reason := "AllMembersReady";
       message := "All members are ready" |}.
Proof.
  rewrite Check_spec. destruct (Members (Status etcd)) as [|m ms]; [now left|].
  destruct (existsb notReady (m :: ms)); [right; now left | right; now right].
Qed.

(** X11. Readiness of a combined member list: when the members of a
    resource are those of two others, both non-empty, one list after the
    other, its status is True exactly when both parts have status True.  So
    adding members to a list that is not all ready never makes it ready. *)
Theorem Check_of_combined_members (etcd1 etcd2 etcd : Etcd) :
  Members (Status etcd) = Members (Status etcd1) ++ Members (Status etcd2) ->
  Members (Status etcd1) <> [] ->
  Members (Status etcd2) <> [] ->
  (status (condition.Check etcd) = ConditionTrue <->
   status (condition.Check etcd1) = ConditionTrue /\
   status (condition.Check etcd2) = ConditionTrue).
Proof.
  intros Happ Hne1 Hne2. rewrite !status_True_iff, Happ, existsb_app, orb_false_iff.
  split.
  - intros [_ [Hx1 Hx2]]. repeat split; assumption.
  - intros [[_ Hx1] [_ Hx2]]. split; [|split; assumption].
    destruct (Members (Status etcd1)); [congruence | discriminate].
Qed.

(** X12. The condition depends on the reported statuses alone: resources
    whose members report the same statuses in the same order get the same
    condition, whatever the member ids, the spec and the metadata are. *)
Theorem Check_depends_on_statuses_only (etcd1 etcd2 : Etcd) :
  map Member_Status (Members (Status etcd1)) = map Member_Status (Members (Status etcd2)) ->
  condition.Check etcd1 = condition.Check etcd2.
Proof.
  intros E. rewrite !Check_spec, (existsb_notReady_statuses _ _ E).
  destruct (Members (Status etcd1)), (Members (Status etcd2));
    solve [reflexivity | discriminate E].
Qed.

End AllMembersReadyFurther.

(** ** Further properties of the feature gates *)

Section FeatureGatesFurther.
Import featuregate features.

Lemma compatible_true (knownSpecs : gmap Feature FeatureSpec) (name : Feature)
    (spec : FeatureSpec) :
  compatible knownSpecs name spec = true <->
  (knownSpecs !! name = None \/ knownSpecs !! name = Some spec).
Proof.
  unfold compatible. destruct (knownSpecs !! name) as [existing|].
  - rewrite bool_decide_eq_true. split.
    + intros ->. now right.
    + intros [Hn | Hs]; congruence.
  - split; [now left | reflexivity].
Qed.

(** X13. Registering twice is harmless: when [RegisterFeatureGates]
    succeeds, calling it again on the resulting gate succeeds too and leaves
    that gate as it is. *)
Theorem RegisterFeatureGates_idempotent (g g' : featureGate) :
  RegisterFeatureGates g = Some g' -> RegisterFeatureGates g' = Some g'.
Proof.
  unfold RegisterFeatureGates, utilruntime.Must. rewrite !Add_featureGates.
  destruct (closed g) eqn:Hclosed; [discriminate|].
  destruct (compatible (known g) _ _); [|discriminate].
  intros Hg. inversion Hg; subst. cbn [closed known].
  unfold compatible. rewrite lookup_insert_eq, bool_decide_eq_true_2 by reflexivity.
  now rewrite insert_insert_eq.
Qed.

(** X14. [RegisterFeatureGates] panics exactly when the shared gate is
    already closed or already knows ["BackupCompaction"] under a spec other
    than disabled-by-default alpha. *)
Theorem RegisterFeatureGates_panics_iff (g : featureGate) :
  RegisterFeatureGates g = None <->
  (closed g = true \/
   exists spec, known g !! BackupCompaction = Some spec /\
                spec <> {| Default := false; PreRelease := Alpha |}).
Proof.
  unfold RegisterFeatureGates, utilruntime.Must. rewrite Add_featureGates.
  destruct (closed g); [split; [now left | reflexivity]|].
  destruct (compatible _ _ _) eqn:Hcompat.
  - split; [discriminate|]. intros [Hc | [spec [Hk Hne]]]; [discriminate|].
    apply compatible_true in Hcompat as [Hn | Hs]; congruence.
  - split; [|reflexivity]. intros _. right.
    unfold compatible in Hcompat.
    destruct (known g !! BackupCompaction) as [spec|]; [|discriminate].
    exists spec. split; [reflexivity|]. now apply bool_decide_eq_false in Hcompat.
Qed.

End FeatureGatesFurther.

(** ** The further properties at the sample values *)

Section FurtherAtSamples.
Import druidv1alpha1 common configmap.
#[local] Existing Instance sample.api.
#[local] Existing Instance sample.constants.

(** Two UIDs that share their first six bytes. *)
Lemma member_name_from_UID_prefix_witness :
  let spec := sample.etcdSpec 3 None None None None None None in
  exists cfg1 cfg2,
    createEtcdConfig (sample.etcd "a1b2c3-one" spec []) = Some cfg1 /\
    createEtcdConfig (sample.etcd "a1b2c3-two" spec []) = Some cfg2 /\
    Name cfg1 = Name cfg2 /\ String.length (Name cfg1) = 11%nat.
Proof.
  intros spec.
  destruct (createEtcdConfig (sample.etcd "a1b2c3-one" spec [])) as [cfg1|] eqn:H1;
    [|vm_compute in H1; discriminate H1].
  destruct (createEtcdConfig (sample.etcd "a1b2c3-two" spec [])) as [cfg2|] eqn:H2;
    [|vm_compute in H2; discriminate H2].
  exists cfg1, cfg2. split; [reflexivity|]. split; [reflexivity|].
  destruct (member_name_from_UID_prefix _ _ cfg1 cfg2 H1 H2) as [Hiff Hlen].
  split; [apply Hiff; reflexivity | exact Hlen].
Defined.

Lemma advertise_placeholders_witness :
  exists cfg,
    createEtcdConfig sample.threeReplicas = Some cfg /\
    exists peerScheme clientScheme,
      AdvertisePeerUrls cfg = peerScheme +:+ "@main-peer@shoot@2380" /\
      AdvertiseClientUrls cfg = clientScheme +:+ "@main-peer@shoot@2379" /\
      (peerScheme = "https" <-> ClientCertAuth (PeerSecurity cfg) = true) /\
      (clientScheme = "http" <-> ClientCertAuth (ClientSecurity cfg) = false).
Proof.
  destruct (createEtcdConfig sample.threeReplicas) as [cfg|] eqn:Hc;
    [|vm_compute in Hc; discriminate Hc].
  exists cfg. split; [reflexivity|].
  destruct (advertise_placeholders sample.threeReplicas cfg Hc eq_refl eq_refl)
    as (ps & cs & sp & cp & -> & -> & _ & Hap & _ & Hac & Hps & _ & _ & Hcs).
  exists ps, cs. repeat split; try assumption; apply Hps || apply Hcs.
Defined.

(** An override whose first name begins and whose last URL ends with a
    comma. *)
Lemma lists_never_begin_or_end_with_comma_witness :
  let members := [ {| Member_Name := ",a"; URLs := ["u,"] |} ] in
  let etcd :=
    sample.etcd "a1b2c3d4"
      (sample.etcdSpec 3 None None None (Some members) (Some members) None) [] in
  exists cfg,
    createEtcdConfig etcd = Some cfg /\
    starts_with_comma (configmap.InitialCluster cfg) = false /\
    ends_with_comma (AdvertisePeerUrls cfg) = false.
Proof.
  intros members etcd.
  destruct (createEtcdConfig etcd) as [cfg|] eqn:Hc;
    [|vm_compute in Hc; discriminate Hc].
  exists cfg. split; [reflexivity|].
  destruct (lists_never_begin_or_end_with_comma etcd cfg Hc) as ([Hs _] & [_ He] & _).
  split; assumption.
Defined.

Lemma generated_initial_cluster_empty_iff_witness :
  prepareInitialCluster sample.threeReplicas "https" <> "".
Proof.
  intros Hempty.
  apply (generated_initial_cluster_empty_iff sample.threeReplicas "https" eq_refl) in Hempty.
  vm_compute in Hempty. now apply Hempty.
Defined.

Lemma initial_cluster_scale_up_witness :
  prepareInitialCluster (withReplicas sample.threeReplicas 3) "https"
  = prepareInitialCluster (withReplicas sample.threeReplicas 2) "https" +:+ "," +:+
    "main-2=https://main-2.main-peer.shoot.svc:2380".
Proof.
  assert (Hpod : starts_with_comma (GetOrdinalPodName (Meta sample.threeReplicas) 0) = false)
    by (vm_compute; reflexivity).
  assert (Hn : 1 <= 2) by lia.
  exact (initial_cluster_scale_up sample.threeReplicas "https" 2 eq_refl Hpod Hn).
Defined.

(** A present, empty initial-cluster override with three replicas. *)
Lemma override_without_URLs_is_empty_witness :
  prepareInitialCluster
    (sample.etcd "a1b2c3d4" (sample.etcdSpec 3 None None None (Some []) None None) [])
    "http"
  = "".
Proof.
  apply (override_without_URLs_is_empty
           (sample.etcd "a1b2c3d4" (sample.etcdSpec 3 None None None (Some []) None None) [])
           "http" "main-peer" []); [constructor | reflexivity].
Defined.

(** The same peer override with and without peer TLS, three and five
    replicas. *)
Lemma overrides_ignore_rest_of_spec_witness :
  let members := [ {| Member_Name := "a"; URLs := ["http://a1:2380"] |} ] in
  let etcd1 :=
    sample.etcd "a1b2c3d4"
      (sample.etcdSpec 3 None None None None (Some members) None) [] in
  let etcd2 :=
    sample.etcd "ffffff00"
      (sample.etcdSpec 5 None None (Some (sample.tls None)) None (Some members) None) [] in
  exists cfg1 cfg2,
    createEtcdConfig etcd1 = Some cfg1 /\ createEtcdConfig etcd2 = Some cfg2 /\
    AdvertisePeerUrls cfg1 = AdvertisePeerUrls cfg2.
Proof.
  intros members etcd1 etcd2.
  destruct (createEtcdConfig etcd1) as [cfg1|] eqn:H1; [|vm_compute in H1; discriminate H1].
  destruct (createEtcdConfig etcd2) as [cfg2|] eqn:H2; [|vm_compute in H2; discriminate H2].
  exists cfg1, cfg2. split; [reflexivity|]. split; [reflexivity|].
  destruct (overrides_ignore_rest_of_spec etcd1 etcd2 cfg1 cfg2 members H1 H2)
    as (_ & Hpeer & _).
  apply Hpeer; reflexivity.
Defined.

Lemma Check_of_combined_members_witness :
  let spec := sample.etcdSpec 3 None None None None None None in
  condition.status
    (condition.Check
       (sample.etcd "a1b2c3d4" spec
          [sample.member "m0" "Ready"; sample.member "m1" "Ready"]))
  = ConditionTrue.
Proof.
  intros spec.
  apply (Check_of_combined_members
           (sample.etcd "a1b2c3d4" spec [sample.member "m0" "Ready"])
           (sample.etcd "a1b2c3d4" spec [sample.member "m1" "Ready"])
           (sample.etcd "a1b2c3d4" spec
              [sample.member "m0" "Ready"; sample.member "m1" "Ready"]));
    [reflexivity | discriminate | discriminate | split; reflexivity].
Defined.

(** The same statuses under other member ids and another spec. *)
Lemma Check_depends_on_statuses_only_witness :
  condition.Check
    (sample.etcd "a1b2c3d4" (sample.etcdSpec 3 None None None None None None)
       [sample.member "m0" "Ready"; sample.member "m1" "NotReady"])
  = condition.Check
      (sample.etcd "ffffff00" (sample.etcdSpec 5 None None None None None None)
         [sample.member "x" "Ready"; sample.member "y" "NotReady"]).
Proof. apply Check_depends_on_statuses_only. reflexivity. Defined.

Lemma RegisterFeatureGates_idempotent_witness :
  features.RegisterFeatureGates
    {| featuregate.known := features.featureGates; featuregate.closed := false |}
  = Some {| featuregate.known := features.featureGates; featuregate.closed := false |}.
Proof.
  apply (RegisterFeatureGates_idempotent
           {| featuregate.known := ∅; featuregate.closed := false |}).
  unfold features.RegisterFeatureGates, utilruntime.Must.
  rewrite Add_featureGates. reflexivity.
Defined.

End FurtherAtSamples.
